(** * SERP exporter: a shallow embedding of [run_google_serp.py]

    The development follows the source file top to bottom: the values a
    decoded JSON document is made of, the three row extractors, the
    fetch-with-retry loop, the per-keyword orchestrator, the batch
    scheduler and [main].  Effects are explicit: a fetch produces the list
    of events it performs (semaphore operations, POST requests, sleeps and
    lines on the error channel), the orchestrator threads the shared
    [ProcessingStats] record, and a Python exception is a [Raise] result. *)

From Stdlib Require Import ZArith List String Ascii Bool Lia Permutation.
From Stdlib Require Import Floats.PrimFloat Numbers.Cyclic.Int63.Uint63.
Import ListNotations.

Set Warnings "-register-all".

Open Scope Z_scope.
Open Scope list_scope.

(** ** Python values *)

(** What [response.json()] can return, and what a row can hold: the value
    of a decoded JSON document.  A [dict] is kept as an association list in
    insertion order; a decoded document has no repeated key. *)
Inductive Any : Type :=
| PNone
| PBool (b : bool)
| PInt (z : Z)
| PFloat (f : float)
| PStr (s : string)
| PList (l : list Any)
| PDict (d : list (string * Any)).

Definition Dict := list (string * Any).

(** The exceptions the modelled code can raise. *)
Inductive exn : Type :=
| AttributeError
| TypeError
| KeyError
| IndexError
| ZeroDivisionError.

Inductive result (A : Type) : Type :=
| Ok (a : A)
| Raise (e : exn).
Arguments Ok {A} a.
Arguments Raise {A} e.

Definition rbind {A B} (r : result A) (k : A -> result B) : result B :=
  match r with
  | Ok a => k a
  | Raise e => Raise e
  end.

Declare Scope result_scope.
Delimit Scope result_scope with result.
Notation "x <- r ;; k" := (rbind r (fun x => k))
  (at level 61, r at next level, right associativity) : result_scope.

(** [bool(v)]: [None], [False], zero, and the empty string, list and dict
    are falsy. *)
Definition truthy (v : Any) : bool :=
  match v with
  | PNone => false
  | PBool b => b
  | PInt z => negb (z =? 0)
  | PFloat f => negb (PrimFloat.eqb f 0%float)
  | PStr s => negb (String.eqb s EmptyString)
  | PList l => match l with [] => false | _ => true end
  | PDict d => match d with [] => false | _ => true end
  end.

(** [x or y] *)
Definition py_or (x y : Any) : Any := if truthy x then x else y.

Fixpoint lookup (k : string) (d : Dict) : option Any :=
  match d with
  | [] => None
  | (k', v) :: d' => if String.eqb k k' then Some v else lookup k d'
  end.

(** [v.get(k)]: only a dict has the method. *)
Definition get (v : Any) (k : string) : result Any :=
  match v with
  | PDict d => Ok (match lookup k d with Some x => x | None => PNone end)
  | _ => Raise AttributeError
  end.

(** [iter(v)]: a list yields its elements, a string its characters, a dict
    its keys; the other values are not iterable. *)
Definition iter (v : Any) : result (list Any) :=
  match v with
  | PList l => Ok l
  | PStr s => Ok (map (fun c => PStr (String c EmptyString)) (list_ascii_of_string s))
  | PDict d => Ok (map (fun kv => PStr (fst kv)) d)
  | _ => Raise TypeError
  end.

(** [v != s] for a string literal [s] *)
Definition ne_str (v : Any) (s : string) : bool :=
  match v with
  | PStr t => negb (String.eqb t s)
  | _ => true
  end.

(** [len(v)] *)
Definition len (v : Any) : result Z :=
  match v with
  | PList l => Ok (Z.of_nat (List.length l))
  | PStr s => Ok (Z.of_nat (String.length s))
  | PDict d => Ok (Z.of_nat (List.length d))
  | _ => Raise TypeError
  end.

(** [v[0]] *)
Definition index0 (v : Any) : result Any :=
  match v with
  | PList (x :: _) => Ok x
  | PList [] => Raise IndexError
  | PStr (String c _) => Ok (PStr (String c EmptyString))
  | PStr EmptyString => Raise IndexError
  | PDict _ => Raise KeyError
  | _ => Raise TypeError
  end.

(** ** Row extraction *)

Definition Row := Dict.

(** A [for] loop whose body only appends to [rows]: the rows of the
    iterations in order; the first exception ends the loop. *)
Fixpoint for_each (xs : list Any) (body : Any -> result (list Row))
  : result (list Row) :=
  match xs with
  | [] => Ok []
  | x :: xs' =>
      (rs <- body x ;;
       rest <- for_each xs' body ;;
       Ok (rs ++ rest))%result
  end.

(** The dict literal appended for one reference by
    [_extract_ai_overview_rows]; its three occurrences differ only in the
    markdown. *)
Definition reference_row (result_keyword markdown ref : Any) : result Row :=
  (domain <- get ref "domain" ;;
   source <- get ref "source" ;;
   title <- get ref "title" ;;
   url <- get ref "url" ;;
   text <- get ref "text" ;;
   Ok [ ("result_type"%string, PStr "ai_overview");
        ("keyword"%string, result_keyword);
        ("domain"%string, domain);
        ("references_source"%string, py_or source title);
        ("references_url"%string, url);
        ("references_text"%string, text);
        ("references_markdown"%string, markdown) ])%result.

Definition reference_rows (result_keyword markdown owner : Any)
  : result (list Row) :=
  (refs <- get owner "references" ;;
   refs <- iter (py_or refs (PList [])) ;;
   for_each refs (fun ref =>
     row <- reference_row result_keyword markdown ref ;; Ok [row]))%result.

Definition ai_overview_item_rows (result_keyword item : Any)
  : result (list Row) :=
  (ty <- get item "type" ;;
   if ne_str ty "ai_overview" then Ok []
   else
     ai_markdown <- get item "markdown" ;;
     direct <- reference_rows result_keyword (py_or ai_markdown (PStr "")) item ;;
     sub_items <- get item "items" ;;
     sub_items <- iter (py_or sub_items (PList [])) ;;
     nested <- for_each sub_items (fun sub_item =>
       md <- get sub_item "markdown" ;;
       let sub_markdown := py_or md (py_or ai_markdown (PStr "")) in
       sub_rows <- reference_rows result_keyword sub_markdown sub_item ;;
       components <- get sub_item "components" ;;
       components <- iter (py_or components (PList [])) ;;
       comp_rows <- for_each components (fun component =>
         cmd <- get component "markdown" ;;
         let comp_markdown := py_or cmd sub_markdown in
         reference_rows result_keyword (py_or comp_markdown (PStr "")) component) ;;
       Ok (sub_rows ++ comp_rows)) ;;
     Ok (direct ++ nested))%result.

(** The three extractors share the walk over [tasks[].result[].items[]]. *)
Definition walk_items (response_dict : Any) (keyword_fallback : string)
    (item_rows : Any -> Any -> result (list Row)) : result (list Row) :=
  (tasks <- get response_dict "tasks" ;;
   tasks <- iter (py_or tasks (PList [])) ;;
   for_each tasks (fun task =>
     task_data <- get task "data" ;;
     let task_data := py_or task_data (PDict []) in
     kw <- get task_data "keyword" ;;
     let task_keyword := py_or kw (PStr keyword_fallback) in
     results <- get task "result" ;;
     results <- iter (py_or results (PList [])) ;;
     for_each results (fun res =>
       rkw <- get res "keyword" ;;
       let result_keyword := py_or rkw task_keyword in
       items <- get res "items" ;;
       items <- iter (py_or items (PList [])) ;;
       for_each items (item_rows result_keyword))))%result.

Definition _extract_ai_overview_rows (response_dict : Any)
    (keyword_fallback : string) : result (list Row) :=
  walk_items response_dict keyword_fallback ai_overview_item_rows.

Definition organic_item_rows (result_keyword item : Any) : result (list Row) :=
  (ty <- get item "type" ;;
   if ne_str ty "organic" then Ok []
   else
     page <- get item "page" ;;
     rank_group <- get item "rank_group" ;;
     rank_absolute <- get item "rank_absolute" ;;
     position <- get item "position" ;;
     domain <- get item "domain" ;;
     url <- get item "url" ;;
     title <- get item "title" ;;
     description <- get item "description" ;;
     extended_snippet <- get item "extended_snippet" ;;
     breadcrumb <- get item "breadcrumb" ;;
     website_name <- get item "website_name" ;;
     Ok [[ ("result_type"%string, PStr "organic");
           ("keyword"%string, result_keyword);
           ("page"%string, page);
           ("rank_group"%string, rank_group);
           ("rank_absolute"%string, rank_absolute);
           ("position"%string, position);
           ("domain"%string, domain);
           ("url"%string, url);
           ("title"%string, title);
           ("description"%string, description);
           ("extended_snippet"%string, extended_snippet);
           ("breadcrumb"%string, breadcrumb);
           ("website_name"%string, website_name) ]])%result.

Definition _extract_organic_rows (response_dict : Any)
    (keyword_fallback : string) : result (list Row) :=
  walk_items response_dict keyword_fallback organic_item_rows.

Definition ai_mode_item_rows (result_keyword item : Any) : result (list Row) :=
  (item_type <- get item "type" ;;
   if ne_str item_type "ai_overview" then Ok []
   else
     md <- get item "markdown" ;;
     let ai_markdown := py_or md (PStr "") in
     refs <- get item "references" ;;
     let references := py_or refs (PList []) in
     citations_count <- len references ;;
     primary <-
       (if truthy references then
          first_ref <- index0 references ;;
          d <- get first_ref "domain" ;;
          u <- get first_ref "url" ;;
          Ok (py_or d (PStr ""), py_or u (PStr ""))
        else Ok (PStr "", PStr "")) ;;
     let primary_domain := fst primary in
     let primary_url := snd primary in
     let main_row : Row :=
       [ ("result_type"%string, PStr "ai_mode");
         ("keyword"%string, result_keyword);
         ("ai_mode_summary"%string, ai_markdown);
         ("ai_mode_citations_count"%string, PInt citations_count);
         ("ai_mode_primary_domain"%string, primary_domain);
         ("ai_mode_primary_url"%string, primary_url);
         ("domain"%string, primary_domain) ] in
     refs <- iter references ;;
     ref_rows <- for_each refs (fun ref =>
       domain <- get ref "domain" ;;
       source <- get ref "source" ;;
       title <- get ref "title" ;;
       url <- get ref "url" ;;
       text <- get ref "text" ;;
       Ok [[ ("result_type"%string, PStr "ai_mode");
             ("keyword"%string, result_keyword);
             ("domain"%string, domain);
             ("references_source"%string, py_or source title);
             ("references_url"%string, url);
             ("references_text"%string, text);
             ("references_markdown"%string, ai_markdown);
             ("ai_mode_summary"%string, PStr "");
             ("ai_mode_citations_count"%string, PStr "");
             ("ai_mode_primary_domain"%string, PStr "");
             ("ai_mode_primary_url"%string, PStr "") ]]) ;;
     Ok (main_row :: ref_rows))%result.

Definition _extract_ai_mode_rows (response_dict : Any)
    (keyword_fallback : string) : result (list Row) :=
  walk_items response_dict keyword_fallback ai_mode_item_rows.

(** ** Configuration *)

Definition LOAD_GOOGLE_AI_MODE : bool := true.
Definition MAX_CONCURRENT_REQUESTS : nat := 20.
Definition MAX_RETRIES : nat := 3.
Definition RETRY_DELAY_BASE : float := 1%float.

(** [float(z)] for an integer in the range of a machine word, which covers
    [2 ** attempt] for every attempt number below 63. *)
Definition float_of_int (z : Z) : float := PrimFloat.of_uint63 (Uint63.of_Z z).

(** [RETRY_DELAY_BASE * (2 ** attempt)] *)
Definition backoff_delay (attempt : nat) : float :=
  PrimFloat.mul RETRY_DELAY_BASE (float_of_int (2 ^ Z.of_nat attempt)).

Record ProcessingStats : Type := mkStats {
  total : Z;
  completed : Z;
  failed : Z;
  ai_overview_rows : Z;
  organic_rows : Z;
  ai_mode_rows : Z
}.

(** ** Fetch with retry *)

Inductive endpoint : Type :=
| organic_live_advanced
| ai_mode_live_advanced.

(** The exception raised while a response body is read. *)
Inductive read_error : Type :=
| ReadTimeoutError
| ReadClientError (e : string).

(** What the provider does on one attempt.  The POST raises one of the two
    exceptions the loop catches, or a response arrives with its status.
    The body of a response is read only where the code reads it
    ([response.json()] for a 200, [response.text()] for an error status),
    and that read happens inside the [try]: [Response] is a response whose
    body can be read, with what the two reads give; [Unreadable] is a
    response whose status arrives but whose body cannot be read, the read
    raising a timeout or a transport error.  An attempt that raises
    anything else is not modelled. *)
Inductive outcome : Type :=
| Response (status : Z) (json : Any) (text : string)
| RaiseTimeoutError
| RaiseClientError (e : string)
| Unreadable (status : Z) (err : read_error).

(** The provider as seen by one keyword: the outcome of the n-th POST of a
    logical call to an endpoint. *)
Definition ClientSession := endpoint -> nat -> outcome.

Inductive message : Type :=
| ApiError (url : endpoint) (keyword : string) (status : Z) (error_text : string)
| TimeoutAfterRetries (url : endpoint) (keyword : string)
| ConnectionError (url : endpoint) (keyword : string) (e : string)
| KeywordsFileNotFound
| NoKeywordsFound.

Inductive event : Type :=
| Acquire
| Release
| Post (url : endpoint) (keyword : string) (attempt : nat)
| Sleep (delay : float)
| Stderr (msg : message)
| WriteCsv (header : list string) (records : list (list Any))
| WriteJson (rows : list Row).

(** The body of [for attempt in range(MAX_RETRIES)], over the attempt
    numbers still to run.  The result is the data returned from inside the
    loop, or [None] when the loop returns failure or runs out. *)
Fixpoint retry_loop (url : endpoint) (session : ClientSession)
    (keyword : string) (attempts : list nat) : list event * Any :=
  match attempts with
  | [] => ([], PNone)
  | attempt :: rest =>
      match session url attempt with
      | Response status data error_text =>
          if status =? 200 then
            ([Post url keyword attempt], data)
          else if status =? 429 then
            let '(evs, r) := retry_loop url session keyword rest in
            (Post url keyword attempt :: Sleep (backoff_delay attempt) :: evs, r)
          else
            ([Post url keyword attempt;
              Stderr (ApiError url keyword status (substring 0 200 error_text))],
             PNone)
      | RaiseTimeoutError =>
          if (attempt <? MAX_RETRIES - 1)%nat then
            let '(evs, r) := retry_loop url session keyword rest in
            (Post url keyword attempt :: Sleep (backoff_delay attempt) :: evs, r)
          else
            ([Post url keyword attempt; Stderr (TimeoutAfterRetries url keyword)],
             PNone)
      | RaiseClientError e =>
          if (attempt <? MAX_RETRIES - 1)%nat then
            let '(evs, r) := retry_loop url session keyword rest in
            (Post url keyword attempt :: Sleep (backoff_delay attempt) :: evs, r)
          else
            ([Post url keyword attempt; Stderr (ConnectionError url keyword e)],
             PNone)
      | Unreadable status err =>
          if status =? 429 then
            (* the body of a 429 is not read *)
            let '(evs, r) := retry_loop url session keyword rest in
            (Post url keyword attempt :: Sleep (backoff_delay attempt) :: evs, r)
          else
            (* [response.json()] or [response.text()] raises inside the
               [try]; the matching [except] clause runs *)
            if (attempt <? MAX_RETRIES - 1)%nat then
              let '(evs, r) := retry_loop url session keyword rest in
              (Post url keyword attempt :: Sleep (backoff_delay attempt) :: evs,
               r)
            else
              ([Post url keyword attempt;
                Stderr (match err with
                        | ReadTimeoutError => TimeoutAfterRetries url keyword
                        | ReadClientError e => ConnectionError url keyword e
                        end)],
               PNone)
      end
  end.

(** [async with semaphore: for attempt in range(MAX_RETRIES): ...]; the two
    fetch functions are this code at their two URLs. *)
Definition fetch (url : endpoint) (session : ClientSession) (keyword : string)
  : list event * (string * Any) :=
  let '(evs, r) := retry_loop url session keyword (seq 0 MAX_RETRIES) in
  (Acquire :: evs ++ [Release], (keyword, r)).

Definition fetch_serp_data := fetch organic_live_advanced.
Definition fetch_ai_mode_data := fetch ai_mode_live_advanced.

(** ** The orchestrator's effects: events, shared statistics, exceptions *)

Definition M (A : Type) : Type :=
  ProcessingStats -> list event * ProcessingStats * result A.

Definition ret {A} (a : A) : M A := fun stats => ([], stats, Ok a).

Definition bind {A B} (m : M A) (k : A -> M B) : M B :=
  fun stats =>
    match m stats with
    | (evs, stats', Ok a) =>
        let '(evs', stats'', r) := k a stats' in (evs ++ evs', stats'', r)
    | (evs, stats', Raise e) => (evs, stats', Raise e)
    end.

Declare Scope M_scope.
Delimit Scope M_scope with M.
Notation "x <- m ;; k" := (bind m (fun x => k))
  (at level 61, m at next level, right associativity) : M_scope.
Notation "m ;;; k" := (bind m (fun _ => k))
  (at level 61, right associativity) : M_scope.

(** An awaited fetch: its events happen, its value is returned. *)
Definition await {A} (io : list event * A) : M A :=
  fun stats => (fst io, stats, Ok (snd io)).

(** A call that may raise. *)
Definition call {A} (r : result A) : M A := fun stats => ([], stats, r).

Definition update (f : ProcessingStats -> ProcessingStats) : M unit :=
  fun stats => ([], f stats, Ok tt).

Definition add_completed (n : Z) (s : ProcessingStats) : ProcessingStats :=
  mkStats (total s) (completed s + n) (failed s) (ai_overview_rows s)
          (organic_rows s) (ai_mode_rows s).
Definition add_failed (n : Z) (s : ProcessingStats) : ProcessingStats :=
  mkStats (total s) (completed s) (failed s + n) (ai_overview_rows s)
          (organic_rows s) (ai_mode_rows s).
Definition add_ai_overview_rows (n : Z) (s : ProcessingStats) : ProcessingStats :=
  mkStats (total s) (completed s) (failed s) (ai_overview_rows s + n)
          (organic_rows s) (ai_mode_rows s).
Definition add_organic_rows (n : Z) (s : ProcessingStats) : ProcessingStats :=
  mkStats (total s) (completed s) (failed s) (ai_overview_rows s)
          (organic_rows s + n) (ai_mode_rows s).
Definition add_ai_mode_rows (n : Z) (s : ProcessingStats) : ProcessingStats :=
  mkStats (total s) (completed s) (failed s) (ai_overview_rows s)
          (organic_rows s) (ai_mode_rows s + n).

Definition length_Z {A} (l : list A) : Z := Z.of_nat (List.length l).

(** ** Per-keyword orchestrator *)

Definition process_single_keyword (session : ClientSession) (keyword : string)
  : M (list Row) :=
  (let rows : list Row := [] in
   fetched <- await (fetch_serp_data session keyword) ;;
   let serp_response := snd fetched in
   if truthy serp_response then
     ai_overview <- call (_extract_ai_overview_rows serp_response keyword) ;;
     organic <- call (_extract_organic_rows serp_response keyword) ;;
     let rows := rows ++ ai_overview in
     let rows := rows ++ organic in
     update (add_ai_overview_rows (length_Z ai_overview)) ;;;
     update (add_organic_rows (length_Z organic)) ;;;
     rows <-
       (if LOAD_GOOGLE_AI_MODE then
          fetched <- await (fetch_ai_mode_data session keyword) ;;
          let ai_mode_response := snd fetched in
          if truthy ai_mode_response then
            ai_mode <- call (_extract_ai_mode_rows ai_mode_response keyword) ;;
            update (add_ai_mode_rows (length_Z ai_mode)) ;;;
            ret (rows ++ ai_mode)
          else ret rows
        else ret rows) ;;
     update (add_completed 1) ;;;
     ret rows
   else
     update (add_failed 1) ;;;
     ret rows)%M.

(** ** Keyword source *)

(** [c.isspace()] for a character below code point 256. *)
Definition isspace (c : ascii) : bool :=
  let n := N_of_ascii c in
  ((9 <=? n) && (n <=? 13) || (28 <=? n) && (n <=? 32)
   || (n =? 133) || (n =? 160))%N.

Fixpoint lstrip (s : string) : string :=
  match s with
  | EmptyString => EmptyString
  | String c s' => if isspace c then lstrip s' else s
  end.

Fixpoint rstrip (s : string) : string :=
  match s with
  | EmptyString => EmptyString
  | String c s' =>
      match rstrip s' with
      | EmptyString => if isspace c then EmptyString else String c EmptyString
      | r => String c r
      end
  end.

(** [line.strip()] *)
Definition strip (s : string) : string := rstrip (lstrip s).

(** The keywords file is absent ([None]) or holds lines. *)
Definition _load_keywords (path : option (list string))
  : list event * list string :=
  match path with
  | None => ([Stderr KeywordsFileNotFound], [])
  | Some lines =>
      ([], filter (fun kw => negb (String.eqb kw EmptyString)) (map strip lines))
  end.

(** ** Result sink *)

Definition UNIFIED_FIELDNAMES : list string :=
  [ "result_type"; "keyword"; "domain"; "page"; "rank_group"; "rank_absolute";
    "position"; "url"; "title"; "description"; "extended_snippet";
    "breadcrumb"; "website_name"; "references_source"; "references_url";
    "references_text"; "references_markdown"; "ai_mode_summary";
    "ai_mode_citations_count"; "ai_mode_primary_domain";
    "ai_mode_primary_url" ]%string.

(** The record written for one row:
    ["" if row.get(k) is None else row.get(k)] for each field name. *)
Definition csv_record (row : Row) : list Any :=
  map (fun k => match lookup k row with
                | Some PNone | None => PStr ""
                | Some v => v
                end) UNIFIED_FIELDNAMES.

Definition _write_unified_csv (rows : list Row) : event :=
  WriteCsv UNIFIED_FIELDNAMES (map csv_record rows).

Definition _write_json (rows : list Row) : event := WriteJson rows.

(** ** Batch scheduler *)

(** [for coro in asyncio.as_completed(tasks)]: the coroutines are awaited
    in the order in which they complete, [order] listing their positions in
    [keywords].  The result and the statistics depend on that order only;
    here the events of one coroutine are listed together, and the
    interleavings of the coroutines' events are those of [step] below. *)
Fixpoint as_completed (net : nat -> ClientSession) (keywords : list string)
    (order : list nat) : M (list Row) :=
  match order with
  | [] => ret []
  | i :: order' =>
      (keyword_rows <-
         match nth_error keywords i with
         | Some kw => process_single_keyword (net i) kw
         | None => ret []
         end ;;
       all_rows <- as_completed net keywords order' ;;
       ret (keyword_rows ++ all_rows))%M
  end.

Definition new_stats (n : Z) : ProcessingStats := mkStats n 0 0 0 0 0.

Definition process_keywords_async (keywords : list string)
    (net : nat -> ClientSession) (order : list nat)
  : list event * ProcessingStats * result (list Row) :=
  as_completed net keywords order (new_stats (length_Z keywords)).

(** ** Entry point *)

(** [elapsed] is [elapsed.total_seconds()], the reading of the clock; the
    last line printed divides by it.  Lines printed on standard output are
    not events. *)
Definition main (keywords_file : option (list string))
    (net : nat -> ClientSession) (order : list nat) (elapsed : float)
  : list event * result Z :=
  let '(evs0, keywords) := _load_keywords keywords_file in
  match keywords with
  | [] => (evs0 ++ [Stderr NoKeywordsFound], Ok 1)
  | _ =>
      match process_keywords_async keywords net order with
      | (evs, _, Raise e) => (evs0 ++ evs, Raise e)
      | (evs, _, Ok all_rows) =>
          (evs0 ++ evs ++ [_write_unified_csv all_rows; _write_json all_rows],
           if PrimFloat.eqb elapsed 0%float then Raise ZeroDivisionError
           else Ok 0)
      end
  end.

(** ** Interleaved execution under the semaphore *)

(** A coroutine of the batch: the events it has performed, latest first,
    and the events it still has to perform. *)
Definition coroutine : Type := list event * list event.

Record sched : Type := mkSched {
  permits : nat;
  coroutines : list coroutine
}.

(** The events one keyword's coroutine performs. *)
Definition keyword_events (session : ClientSession) (keyword : string)
  : list event :=
  fst (fst (process_single_keyword session keyword (new_stats 0))).

(** [asyncio.Semaphore(MAX_CONCURRENT_REQUESTS)] and one coroutine per
    keyword, none started. *)
Definition start (keywords : list string) (net : nat -> ClientSession) : sched :=
  mkSched MAX_CONCURRENT_REQUESTS
    (map (fun ik => ([], keyword_events (net (fst ik)) (snd ik)))
         (combine (seq 0 (List.length keywords)) keywords)).

(** Entering [async with semaphore] needs a free permit. *)
Definition enabled (p : nat) (e : event) : Prop :=
  match e with
  | Acquire => (0 < p)%nat
  | _ => True
  end.

Definition permits_after (p : nat) (e : event) : nat :=
  match e with
  | Acquire => Nat.pred p
  | Release => S p
  | _ => p
  end.

Fixpoint replace_nth {A} (i : nat) (x : A) (l : list A) : list A :=
  match l, i with
  | [], _ => []
  | _ :: l', O => x :: l'
  | y :: l', S i' => y :: replace_nth i' x l'
  end.

(** The event loop runs the next event of one coroutine at a time. *)
Inductive step : sched -> sched -> Prop :=
| step_event (s : sched) (i : nat) (done : list event) (e : event)
    (rest : list event) :
    nth_error (coroutines s) i = Some (done, e :: rest) ->
    enabled (permits s) e ->
    step s (mkSched (permits_after (permits s) e)
                    (replace_nth i (e :: done, rest) (coroutines s))).

Inductive reachable (s0 : sched) : sched -> Prop :=
| reachable_start : reachable s0 s0
| reachable_step (s s' : sched) :
    reachable s0 s -> step s s' -> reachable s0 s'.

(** A request is in flight from its POST until the coroutine's next event. *)
Definition in_flight (c : coroutine) : bool :=
  match fst c with
  | Post _ _ _ :: _ => true
  | _ => false
  end.

(** The coroutine is between two attempts of one call. *)
Definition backing_off (c : coroutine) : bool :=
  match fst c with
  | Sleep _ :: _ => true
  | _ => false
  end.

(** Permits a coroutine holds, from the events it has performed. *)
Fixpoint held (done : list event) : Z :=
  match done with
  | [] => 0
  | Acquire :: d => held d + 1
  | Release :: d => held d - 1
  | _ :: d => held d
  end.

Definition in_flight_count (s : sched) : nat :=
  List.length (filter in_flight (coroutines s)).

(** The logical calls under way: a request in flight, or a backoff delay
    between two attempts. *)
Definition busy (c : coroutine) : bool := in_flight c || backing_off c.

Definition busy_count (s : sched) : nat :=
  List.length (filter busy (coroutines s)).

(** ** Observations on event lists *)

Definition sleeps (evs : list event) : list float :=
  flat_map (fun e => match e with Sleep d => [d] | _ => [] end) evs.

Definition posts_to (url : endpoint) (evs : list event) : list nat :=
  flat_map (fun e => match e with
                     | Post organic_live_advanced _ a =>
                         match url with organic_live_advanced => [a] | _ => [] end
                     | Post ai_mode_live_advanced _ a =>
                         match url with ai_mode_live_advanced => [a] | _ => [] end
                     | _ => []
                     end) evs.

Definition is_network (e : event) : bool :=
  match e with
  | Acquire | Release | Post _ _ _ | Sleep _ => true
  | _ => false
  end.

(** ** Vocabulary of the statements *)

(** [d.get(k)] on a dict. *)
Definition dget (d : Dict) (k : string) : Any :=
  match lookup k d with Some x => x | None => PNone end.

(** The item's ["type"] is the string [ty]. *)
Definition has_type (ty : string) (item : Dict) : bool :=
  negb (ne_str (dget item "type") ty).

Definition count_type (ty : string) (items : list Dict) : nat :=
  List.length (filter (has_type ty) items).

(** The attempt is answered in a way that makes the exporter's loop go on
    to the next attempt (when it is not the last one): a 429, an exception
    of the POST, or a response whose body cannot be read. *)
Definition retried (o : outcome) : Prop :=
  match o with
  | Response status _ _ => status = 429
  | RaiseTimeoutError => True
  | RaiseClientError _ => True
  | Unreadable _ _ => True
  end.

(** The attempt does not get an HTTP 200 whose body is read. *)
Definition attempt_fails (o : outcome) : Prop :=
  match o with
  | Response status _ _ => status <> 200
  | _ => True
  end.

(** The events of the attempts [a], [a+1], ..., [a+k-1] when each is
    followed by its backoff delay. *)
Definition retries (url : endpoint) (keyword : string) (a k : nat)
  : list event :=
  flat_map (fun i => [Post url keyword i; Sleep (backoff_delay i)]) (seq a k).

(** An AI-overview item whose citations are all on the item itself: a list
    of [n] reference dicts, and no nested sub-items. *)
Definition flat_ai_overview (n : nat) (item : Dict) : Prop :=
  (exists refs, dget item "references" = PList (map PDict refs) /\
                List.length refs = n) /\
  truthy (dget item "items") = false.

(** A response document for the examples. *)
Definition sample_reference_1 : Dict :=
  [ ("domain"%string, PStr "example.com"); ("source"%string, PStr "Example");
    ("url"%string, PStr "https://example.com/a") ].
Definition sample_reference_2 : Dict :=
  [ ("domain"%string, PStr "example.org"); ("title"%string, PStr "Other") ].
Definition sample_items : list Dict :=
  [ [ ("type"%string, PStr "organic"); ("rank_group"%string, PInt 1);
      ("url"%string, PStr "https://example.net/") ];
    [ ("type"%string, PStr "ai_overview"); ("markdown"%string, PStr "text");
      ("references"%string, PList [PDict sample_reference_1;
                                   PDict sample_reference_2]) ] ].
Definition sample_result : Dict :=
  [ ("keyword"%string, PStr "shoes"); ("items"%string, PList (map PDict sample_items)) ].
Definition sample_task : Dict :=
  [ ("data"%string, PDict [("keyword"%string, PStr "shoes")]);
    ("result"%string, PList [PDict sample_result]) ].
Definition sample_response : Dict :=
  [ ("tasks"%string, PList [PDict sample_task]) ].

(** Providers for the examples. *)
Definition always_429 : ClientSession :=
  fun _ _ => Response 429 PNone "Too Many Requests".
Definition always_timeout : ClientSession :=
  fun _ _ => RaiseTimeoutError.
Definition rate_limited_twice : ClientSession :=
  fun _ attempt =>
    if (attempt <? 2)%nat then Response 429 PNone "Too Many Requests"
    else Response 200 (PDict sample_response) "".
Definition timeout_then_404 : ClientSession :=
  fun _ attempt =>
    match attempt with
    | O => RaiseTimeoutError
    | _ => Response 404 PNone "Not Found"
    end.

Definition empty_body : ClientSession :=
  fun _ _ => Response 200 (PDict []) "{}".
Definition malformed_body : ClientSession :=
  fun _ _ => Response 200 (PDict [("tasks"%string, PInt 5)]) "".
Definition ai_mode_down : ClientSession :=
  fun url _ =>
    match url with
    | organic_live_advanced => Response 200 (PDict sample_response) ""
    | ai_mode_live_advanced => Response 500 PNone "Internal Server Error"
    end.

(** The semaphore protocol of a coroutine's events, from the state [h]
    (does the coroutine hold a permit?): a permit is acquired only when none
    is held and released only when one is held, and requests and backoff
    delays happen only while one is held.  The result is the state after
    the events, or [None] when the protocol is broken. *)
Fixpoint protocol (h : bool) (evs : list event) : option bool :=
  match evs with
  | [] => Some h
  | Acquire :: evs' => if h then None else protocol true evs'
  | Release :: evs' => if h then protocol false evs' else None
  | Post _ _ _ :: evs' => if h then protocol true evs' else None
  | Sleep _ :: evs' => if h then protocol true evs' else None
  | _ :: evs' => protocol h evs'
  end.

(** Neither [Acquire] nor [Release]. *)
Definition permit_free (e : event) : bool :=
  match e with
  | Acquire | Release => false
  | _ => true
  end.

Definition total_held (cs : list coroutine) : Z :=
  fold_right (fun c acc => held (fst c) + acc) 0 cs.

(** A coroutine holds no permit or one, holds one while a request is in
    flight or a backoff delay runs, and its remaining events follow the
    protocol. *)
Definition coroutine_ok (c : coroutine) : Prop :=
  exists h : bool,
    held (fst c) = (if h then 1 else 0) /\
    protocol h (snd c) <> None /\
    (in_flight c = true \/ backing_off c = true -> h = true).

(** Free permits and held permits add up to the size of the semaphore. *)
Definition sched_ok (s : sched) : Prop :=
  Z.of_nat (permits s) + total_held (coroutines s)
    = Z.of_nat MAX_CONCURRENT_REQUESTS /\
  Forall coroutine_ok (coroutines s).

(** A state of the batch for "shoes" and "boots": the first coroutine has
    entered the semaphore and posted its first request. *)
Definition shoes_in_flight : sched :=
  mkSched 19
    [ ([Post organic_live_advanced "shoes" 0; Acquire],
       tl (tl (keyword_events rate_limited_twice "shoes")));
      ([], keyword_events rate_limited_twice "boots") ].

(** ** Vocabulary of the further properties *)

(** The key is one of the CSV columns. *)
Definition is_field (k : string) : bool :=
  existsb (String.eqb k) UNIFIED_FIELDNAMES.

Definition known_fields (row : Row) : bool :=
  forallb (fun kv => is_field (fst kv)) row.

(** A keyword taken from the response (which [or] lets through only when
    truthy) or the caller's fallback. *)
Definition keyword_ok (fallback : string) (v : Any) : Prop :=
  truthy v = true \/ v = PStr fallback.

(** What every extracted row satisfies: its type tag, its keyword, and
    keys that are all CSV columns. *)
Definition row_ok (ty fallback : string) (row : Row) : Prop :=
  lookup "result_type" row = Some (PStr ty) /\
  known_fields row = true /\
  exists v, lookup "keyword" row = Some v /\ keyword_ok fallback v.

(** The cell written in column [k] for a row. *)
Definition csv_cell (row : Row) (k : string) : Any :=
  match lookup k row with
  | Some PNone | None => PStr ""
  | Some v => v
  end.

(** The columns an organic row fills from its item. *)
Definition organic_item_fields : list string :=
  [ "page"; "rank_group"; "rank_absolute"; "position"; "domain"; "url";
    "title"; "description"; "extended_snippet"; "breadcrumb";
    "website_name" ]%string.

Definition stderr_lines (evs : list event) : list message :=
  flat_map (fun e => match e with Stderr m => [m] | _ => [] end) evs.

(** Field by field sum of two statistics records. *)
Definition stats_plus (s d : ProcessingStats) : ProcessingStats :=
  mkStats (total s + total d) (completed s + completed d)
          (failed s + failed d) (ai_overview_rows s + ai_overview_rows d)
          (organic_rows s + organic_rows d) (ai_mode_rows s + ai_mode_rows d).

(** The three per-category row counters together. *)
Definition row_counters (s : ProcessingStats) : Z :=
  ai_overview_rows s + organic_rows s + ai_mode_rows s.

Definition is_write (e : event) : bool :=
  match e with
  | WriteCsv _ _ | WriteJson _ => true
  | _ => false
  end.

(** The coroutine the batch creates for position [i] of [keywords]. *)
Definition keyword_task (net : nat -> ClientSession) (keywords : list string)
    (i : nat) : M (list Row) :=
  match nth_error keywords i with
  | Some kw => process_single_keyword (net i) kw
  | None => ret []
  end.

(** The string does not begin with whitespace. *)
Definition starts_clean (s : string) : Prop :=
  match s with
  | EmptyString => True
  | String c _ => isspace c = false
  end.

(** A keyword as the loader returns them: not empty, no whitespace at
    either end. *)
Definition clean_keyword (kw : string) : Prop :=
  kw <> EmptyString /\ lstrip kw = kw /\ rstrip kw = kw.

(** The line a keyword occupies in the keywords file. *)
Definition keyword_line (kw : string) : string :=
  (kw ++ String (ascii_of_nat 10) EmptyString)%string.

(** A coroutine holds no permit or one, and its remaining events follow
    the protocol and end with no permit held. *)
Definition coroutine_live (c : coroutine) : Prop :=
  exists h : bool,
    held (fst c) = (if h then 1 else 0) /\
    protocol h (snd c) = Some false.

Definition sched_live (s : sched) : Prop :=
  Z.of_nat (permits s) + total_held (coroutines s)
    = Z.of_nat MAX_CONCURRENT_REQUESTS /\
  Forall coroutine_live (coroutines s).

(** Every coroutine has performed all its events. *)
Definition finished (s : sched) : Prop :=
  Forall (fun c : coroutine => snd c = []) (coroutines s).

(** ** The dashboard ([streamlit-ai-audit/app.py])

    The dashboard has its own copy of the pipeline.  Its constants
    [MAX_RETRIES] and [RETRY_DELAY_BASE] have the values of the exporter's,
    and its [extract_ai_overview_rows] and [extract_organic_rows] are the
    exporter's functions word for word, so those definitions are shared.
    Its fetch functions print nothing and do not read the body of an error
    status, its AI-mode extractor builds shorter citation rows, and its
    batch awaits the keywords one after the other. *)

Module Dashboard.

(** The body of [for attempt in range(MAX_RETRIES)] in the dashboard's two
    fetch functions. *)
Fixpoint retry_loop (url : endpoint) (session : ClientSession)
    (keyword : string) (attempts : list nat) : list event * Any :=
  match attempts with
  | [] => ([], PNone)
  | attempt :: rest =>
      match session url attempt with
      | Response status data _ =>
          if status =? 200 then
            ([Post url keyword attempt], data)
          else if status =? 429 then
            let '(evs, r) := retry_loop url session keyword rest in
            (Post url keyword attempt :: Sleep (backoff_delay attempt) :: evs, r)
          else
            ([Post url keyword attempt], PNone)
      | RaiseTimeoutError =>
          if (attempt <? MAX_RETRIES - 1)%nat then
            let '(evs, r) := retry_loop url session keyword rest in
            (Post url keyword attempt :: Sleep (backoff_delay attempt) :: evs, r)
          else
            ([Post url keyword attempt], PNone)
      | RaiseClientError _ =>
          if (attempt <? MAX_RETRIES - 1)%nat then
            let '(evs, r) := retry_loop url session keyword rest in
            (Post url keyword attempt :: Sleep (backoff_delay attempt) :: evs, r)
          else
            ([Post url keyword attempt], PNone)
      | Unreadable status _ =>
          if status =? 200 then
            (* [response.json()] raises inside the [try] *)
            if (attempt <? MAX_RETRIES - 1)%nat then
              let '(evs, r) := retry_loop url session keyword rest in
              (Post url keyword attempt :: Sleep (backoff_delay attempt) :: evs,
               r)
            else
              ([Post url keyword attempt], PNone)
          else if status =? 429 then
            let '(evs, r) := retry_loop url session keyword rest in
            (Post url keyword attempt :: Sleep (backoff_delay attempt) :: evs, r)
          else
            (* the body of an error status is never read here *)
            ([Post url keyword attempt], PNone)
      end
  end.

Definition fetch (url : endpoint) (session : ClientSession) (keyword : string)
  : list event * (string * Any) :=
  let '(evs, r) := retry_loop url session keyword (seq 0 MAX_RETRIES) in
  (Acquire :: evs ++ [Release], (keyword, r)).

Definition fetch_serp_data := fetch organic_live_advanced.
Definition fetch_ai_mode_data := fetch ai_mode_live_advanced.

Definition extract_ai_overview_rows := _extract_ai_overview_rows.
Definition extract_organic_rows := _extract_organic_rows.

Definition ai_mode_item_rows (result_keyword item : Any) : result (list Row) :=
  (item_type <- get item "type" ;;
   if ne_str item_type "ai_overview" then Ok []
   else
     md <- get item "markdown" ;;
     let ai_markdown := py_or md (PStr "") in
     refs <- get item "references" ;;
     let references := py_or refs (PList []) in
     citations_count <- len references ;;
     primary <-
       (if truthy references then
          first_ref <- index0 references ;;
          d <- get first_ref "domain" ;;
          u <- get first_ref "url" ;;
          Ok (py_or d (PStr ""), py_or u (PStr ""))
        else Ok (PStr "", PStr "")) ;;
     let primary_domain := fst primary in
     let primary_url := snd primary in
     let main_row : Row :=
       [ ("result_type"%string, PStr "ai_mode");
         ("keyword"%string, result_keyword);
         ("ai_mode_summary"%string, ai_markdown);
         ("ai_mode_citations_count"%string, PInt citations_count);
         ("ai_mode_primary_domain"%string, primary_domain);
         ("ai_mode_primary_url"%string, primary_url);
         ("domain"%string, primary_domain) ] in
     refs <- iter references ;;
     ref_rows <- for_each refs (fun ref =>
       domain <- get ref "domain" ;;
       source <- get ref "source" ;;
       title <- get ref "title" ;;
       url <- get ref "url" ;;
       text <- get ref "text" ;;
       Ok [[ ("result_type"%string, PStr "ai_mode");
             ("keyword"%string, result_keyword);
             ("domain"%string, domain);
             ("references_source"%string, py_or source title);
             ("references_url"%string, url);
             ("references_text"%string, text);
             ("references_markdown"%string, ai_markdown) ]]) ;;
     Ok (main_row :: ref_rows))%result.

Definition extract_ai_mode_rows (response_dict : Any)
    (keyword_fallback : string) : result (list Row) :=
  walk_items response_dict keyword_fallback ai_mode_item_rows.

(** What the batch does: an event of a fetch, or a call of
    [progress_callback]. *)
Inductive app_event : Type :=
| Net (e : event)
| Progress (progress : float) (text : string).

(** The body of [for keyword in keywords], up to the rows it appends. *)
Definition keyword_step (session : ClientSession) (fetch_ai_mode : bool)
    (keyword : string) : list event * result (list Row) :=
  let fetched := fetch_serp_data session keyword in
  let serp_response := snd (snd fetched) in
  if truthy serp_response then
    match extract_ai_overview_rows serp_response keyword with
    | Raise e => (fst fetched, Raise e)
    | Ok ai_overview_rows =>
        match extract_organic_rows serp_response keyword with
        | Raise e => (fst fetched, Raise e)
        | Ok organic_rows =>
            if fetch_ai_mode then
              let fetched' := fetch_ai_mode_data session keyword in
              let ai_mode_response := snd (snd fetched') in
              if truthy ai_mode_response then
                match extract_ai_mode_rows ai_mode_response keyword with
                | Raise e => (fst fetched ++ fst fetched', Raise e)
                | Ok ai_mode_rows =>
                    (fst fetched ++ fst fetched',
                     Ok ((ai_overview_rows ++ organic_rows) ++ ai_mode_rows))
                end
              else
                (fst fetched ++ fst fetched',
                 Ok (ai_overview_rows ++ organic_rows))
            else (fst fetched, Ok (ai_overview_rows ++ organic_rows))
        end
    end
  else (fst fetched, Ok []).

(** [for keyword in keywords], from position [i] of the list, with [n] its
    full length and [completed] the counter. *)
Fixpoint keywords_loop (net : nat -> ClientSession) (fetch_ai_mode : bool)
    (n : Z) (keywords : list string) (i : nat) (completed : Z)
  : list app_event * result (list Row) :=
  match keywords with
  | [] => ([], Ok [])
  | keyword :: rest =>
      match keyword_step (net i) fetch_ai_mode keyword with
      | (evs, Raise e) => (map Net evs, Raise e)
      | (evs, Ok rows) =>
          let completed := completed + 1 in
          let called :=
            Progress (PrimFloat.div (float_of_int completed) (float_of_int n))
                     ("Processing: " ++ keyword)%string in
          let '(evs', r) :=
            keywords_loop net fetch_ai_mode n rest (S i) completed in
          (map Net evs ++ called :: evs',
           match r with
           | Ok all_rows => Ok (rows ++ all_rows)
           | Raise e => Raise e
           end)
      end
  end.

Definition process_keywords_async (keywords : list string)
    (net : nat -> ClientSession) (fetch_ai_mode : bool)
  : list app_event * result (list Row) :=
  keywords_loop net fetch_ai_mode (length_Z keywords) keywords 0 0.

Definition net_events (evs : list app_event) : list event :=
  flat_map (fun a => match a with Net e => [e] | Progress _ _ => [] end) evs.

Definition progress_calls (evs : list app_event) : list (float * string) :=
  flat_map (fun a => match a with
                     | Net _ => []
                     | Progress p t => [(p, t)]
                     end) evs.

End Dashboard.





(** The shape of a well-formed response: each task with its results, each
    result with its items. *)
Definition doc_shape := list (Dict * list (Dict * list Dict)).

Definition result_has_items (ri : Dict * list Dict) : Prop :=
  dget (fst ri) "items" = PList (map PDict (snd ri)).

Definition task_has_results (tr : Dict * list (Dict * list Dict)) : Prop :=
  (exists d, py_or (dget (fst tr) "data") (PDict []) = PDict d) /\
  dget (fst tr) "result" = PList (map (fun ri => PDict (fst ri)) (snd tr)) /\
  Forall result_has_items (snd tr).

Definition doc_has_shape (doc : Dict) (shape : doc_shape) : Prop :=
  dget doc "tasks" = PList (map (fun tr => PDict (fst tr)) shape) /\
  Forall task_has_results shape.

(** All the items of the document, in document order. *)
Definition all_items (shape : doc_shape) : list Dict :=
  flat_map (fun tr => flat_map (fun ri => snd ri) (snd tr)) shape.

(** A block of citations: a markdown text and references. *)
Record citation_block : Type := mkBlock {
  block_markdown : Any;
  block_references : list Dict
}.

Definition block_fields (b : citation_block) : Dict :=
  [ ("markdown"%string, block_markdown b);
    ("references"%string, PList (map PDict (block_references b))) ].

Definition component_dict (c : citation_block) : Any := PDict (block_fields c).

(** A sub-item of an AI overview, with its components. *)
Definition sub_item_dict (s : citation_block * list citation_block) : Any :=
  PDict (block_fields (fst s)
           ++ [("components"%string, PList (map component_dict (snd s)))]).

(** An AI-overview item, with its sub-items. *)
Definition ai_overview_dict (b : citation_block)
    (subs : list (citation_block * list citation_block)) : Any :=
  PDict (("type"%string, PStr "ai_overview")
           :: block_fields b
           ++ [("items"%string, PList (map sub_item_dict subs))]).

(** The markdown each citation row is expected to carry: the block's own,
    else the enclosing sub-item's, else the item's, else the empty
    string. *)
Definition expected_markdowns (b : citation_block)
    (subs : list (citation_block * list citation_block)) : list Any :=
  let item_md := py_or (block_markdown b) (PStr "") in
  repeat item_md (List.length (block_references b))
  ++ flat_map (fun s =>
       let sub_md := py_or (block_markdown (fst s)) item_md in
       repeat sub_md (List.length (block_references (fst s)))
       ++ flat_map (fun c =>
            repeat (py_or (py_or (block_markdown c) sub_md) (PStr ""))
                   (List.length (block_references c)))
          (snd s))
     subs.

Definition sample_shape : doc_shape :=
  [ (sample_task, [ (sample_result, sample_items) ]) ].


(** A provider whose every answer is a 500 that breaks off before its body
    is read, and one that recovers after the first such answer. *)
Definition broken_500 : ClientSession :=
  fun _ _ => Unreadable 500 (ReadClientError "Response payload is not completed").
Definition broken_503_then_200 : ClientSession :=
  fun _ attempt =>
    match attempt with
    | O => Unreadable 503 (ReadClientError "Response payload is not completed")
    | _ => Response 200 (PDict sample_response) ""
    end.

(** * Properties *)

(** ** Extraction *)

Lemma iter_or_list (l : list Any) : iter (py_or (PList l) (PList [])) = Ok l.
Proof. destruct l; reflexivity. Qed.

Lemma get_dict (d : Dict) (k : string) : get (PDict d) k = Ok (dget d k).
Proof. reflexivity. Qed.

Lemma organic_items_count (kw : Any) (items : list Dict) :
  exists rows,
    for_each (map PDict items) (organic_item_rows kw) = Ok rows /\
    List.length rows = count_type "organic" items.
Proof.
  induction items as [|it items [rows [IH Hlen]]].
  - exists []. split; reflexivity.
  - cbn [map for_each]. rewrite IH.
    unfold count_type in *. cbn [filter]. unfold has_type at 1.
    unfold organic_item_rows. rewrite get_dict. cbn [rbind].
    destruct (ne_str (dget it "type") "organic").
    + exists rows. split; [reflexivity | exact Hlen].
    + eexists. split; [reflexivity|]. cbn. now rewrite Hlen.
Qed.

Lemma reference_rows_dicts (kw md : Any) (owner : Dict) (refs : list Dict) :
  dget owner "references" = PList (map PDict refs) ->
  exists rows,
    reference_rows kw md (PDict owner) = Ok rows /\
    List.length rows = List.length refs.
Proof.
  intros Href. unfold reference_rows. rewrite get_dict, Href. cbn [rbind].
  rewrite iter_or_list. cbn [rbind]. clear Href.
  induction refs as [|r refs [rows [IH Hlen]]].
  - exists []. split; reflexivity.
  - cbn [map for_each]. rewrite IH. eexists. split; [reflexivity|].
    cbn. now rewrite Hlen.
Qed.

Lemma ai_overview_items_count (kw : Any) (n : nat) (items : list Dict) :
  (forall it, In it items -> has_type "ai_overview" it = true ->
              flat_ai_overview n it) ->
  exists rows,
    for_each (map PDict items) (ai_overview_item_rows kw) = Ok rows /\
    List.length rows = (n * count_type "ai_overview" items)%nat.
Proof.
  induction items as [|it items IH]; intros Hflat.
  - exists []. split; [reflexivity|]. unfold count_type. cbn. lia.
  - destruct IH as [rows [IH Hlen]].
    { intros it' Hin. apply Hflat. now right. }
    cbn [map for_each]. rewrite IH.
    unfold count_type in *. cbn [filter].
    specialize (Hflat it (or_introl eq_refl)).
    unfold has_type in Hflat |- * at 1.
    unfold ai_overview_item_rows. rewrite get_dict. cbn [rbind].
    destruct (ne_str (dget it "type") "ai_overview").
    + exists rows. split; [reflexivity | exact Hlen].
    + destruct (Hflat eq_refl) as [[refs [Href Hn]] Hsub].
      rewrite get_dict. cbn [rbind].
      destruct (reference_rows_dicts kw
                  (py_or (dget it "markdown") (PStr "")) it refs Href)
        as [direct [Hd Hdl]].
      rewrite Hd. cbn [rbind]. rewrite get_dict. cbn [rbind].
      replace (py_or (dget it "items") (PList [])) with (PList [])
        by (unfold py_or; now rewrite Hsub).
      cbn [iter rbind for_each].
      eexists. split; [reflexivity|].
      cbn [negb List.length]. unfold Row, Dict in *.
      rewrite !length_app, Hdl, Hn, Hlen. cbn. lia.
Qed.

(** The walk over a document with one task holding one result. *)
Lemma walk_single (doc task res : Dict) (items : list Any) (fallback : string)
    (item_rows : Any -> Any -> result (list Row)) :
  dget doc "tasks" = PList [PDict task] ->
  (exists d, py_or (dget task "data") (PDict []) = PDict d) ->
  dget task "result" = PList [PDict res] ->
  dget res "items" = PList items ->
  exists kw,
    walk_items (PDict doc) fallback item_rows =
    (rows <- for_each items (item_rows kw) ;; Ok ((rows ++ []) ++ []))%result.
Proof.
  intros Ht [d Hd] Hr Hi.
  exists (py_or (dget res "keyword") (py_or (dget d "keyword") (PStr fallback))).
  unfold walk_items.
  rewrite get_dict, Ht. cbn [rbind py_or truthy iter for_each].
  rewrite get_dict. cbn [rbind]. rewrite Hd, get_dict. cbn [rbind].
  rewrite get_dict, Hr. cbn [rbind py_or truthy iter for_each].
  rewrite get_dict. cbn [rbind]. rewrite get_dict, Hi. cbn [rbind].
  rewrite iter_or_list. cbn [rbind].
  destruct (for_each items _); reflexivity.
Qed.

(** C7: on a response document with one task and one result whose items
    hold exactly one item of type "organic" and exactly one of type
    "ai_overview", the latter carrying a references list of exactly two
    entries (and no nested sub-items), [_extract_organic_rows] returns
    exactly 1 row and [_extract_ai_overview_rows] exactly 2 rows. *)
Theorem extract_one_organic_two_references
    (doc task res : Dict) (items : list Dict) (fallback : string) :
  dget doc "tasks" = PList [PDict task] ->
  (exists d, py_or (dget task "data") (PDict []) = PDict d) ->
  dget task "result" = PList [PDict res] ->
  dget res "items" = PList (map PDict items) ->
  count_type "organic" items = 1%nat ->
  count_type "ai_overview" items = 1%nat ->
  (forall it, In it items -> has_type "ai_overview" it = true ->
              flat_ai_overview 2 it) ->
  exists organic ai_overview,
    _extract_organic_rows (PDict doc) fallback = Ok organic /\
    List.length organic = 1%nat /\
    _extract_ai_overview_rows (PDict doc) fallback = Ok ai_overview /\
    List.length ai_overview = 2%nat.
Proof.
  intros Ht Hd Hr Hi Ho Ha Hflat.
  unfold _extract_organic_rows, _extract_ai_overview_rows.
  destruct (walk_single doc task res _ fallback organic_item_rows Ht Hd Hr Hi)
    as [kw1 ->].
  destruct (walk_single doc task res _ fallback ai_overview_item_rows Ht Hd Hr Hi)
    as [kw2 ->].
  destruct (organic_items_count kw1 items) as [ro [-> Hro]].
  destruct (ai_overview_items_count kw2 2 items Hflat) as [ra [-> Hra]].
  cbn [rbind]. do 2 eexists. repeat split.
  - rewrite !app_nil_r. congruence.
  - rewrite !app_nil_r, Hra, Ha. reflexivity.
Qed.

Lemma extract_one_organic_two_references_witness :
  exists organic ai_overview,
    _extract_organic_rows (PDict sample_response) "shoes" = Ok organic /\
    List.length organic = 1%nat /\
    _extract_ai_overview_rows (PDict sample_response) "shoes" = Ok ai_overview /\
    List.length ai_overview = 2%nat.
Proof.
  apply (extract_one_organic_two_references
           sample_response sample_task sample_result sample_items "shoes").
  - reflexivity.
  - eexists. reflexivity.
  - reflexivity.
  - reflexivity.
  - reflexivity.
  - reflexivity.
  - intros it [<- | [<- | []]] Hty.
    + discriminate Hty.
    + split; [|reflexivity].
      exists [sample_reference_1; sample_reference_2]. split; reflexivity.
Defined.

(** ** Fetch with retry *)

Lemma backoff_delay_values :
  map backoff_delay (seq 0 MAX_RETRIES) = [1; 2; 4]%float.
Proof. reflexivity. Qed.

(** While the attempts are answered by 429, a timeout or a transport
    error, and the last attempt has not been reached, the loop posts,
    sleeps and goes on. *)
Lemma retry_loop_retried (url : endpoint) (session : ClientSession)
    (keyword : string) (k : nat) :
  forall a n : nat,
    (k <= n)%nat ->
    (a + k <= MAX_RETRIES - 1)%nat ->
    (forall i, (a <= i < a + k)%nat -> retried (session url i)) ->
    retry_loop url session keyword (seq a n) =
    (retries url keyword a k
       ++ fst (retry_loop url session keyword (seq (a + k) (n - k))),
     snd (retry_loop url session keyword (seq (a + k) (n - k)))).
Proof.
  induction k as [|k IH]; intros a n Hn Ha Hret.
  - rewrite Nat.add_0_r, Nat.sub_0_r. cbn.
    now destruct (retry_loop url session keyword (seq a n)).
  - destruct n as [|n]; [lia|].
    cbn [seq retry_loop].
    assert (Hlt : (a <? MAX_RETRIES - 1)%nat = true)
      by (apply Nat.ltb_lt; lia).
    specialize (IH (S a) n ltac:(lia) ltac:(lia)
                   ltac:(intros i Hi; apply Hret; lia)).
    replace (a + S k)%nat with (S a + k)%nat by lia.
    replace (S n - S k)%nat with (n - k)%nat by lia.
    pose proof (Hret a ltac:(lia)) as Ha0.
    unfold retries in *. cbn [seq flat_map].
    destruct (session url a) as [status data text| |e|status err]; cbn in Ha0.
    + subst status. cbn [Z.eqb Pos.eqb]. rewrite IH. reflexivity.
    + rewrite Hlt, IH. reflexivity.
    + rewrite Hlt, IH. reflexivity.
    + rewrite Hlt, IH. now destruct (status =? 429).
Qed.

Lemma sleeps_app (l1 l2 : list event) : sleeps (l1 ++ l2) = sleeps l1 ++ sleeps l2.
Proof. apply flat_map_app. Qed.

Lemma posts_to_app (url : endpoint) (l1 l2 : list event) :
  posts_to url (l1 ++ l2) = posts_to url l1 ++ posts_to url l2.
Proof. apply flat_map_app. Qed.

Lemma sleeps_retries (url : endpoint) (keyword : string) (a k : nat) :
  sleeps (retries url keyword a k) = map backoff_delay (seq a k).
Proof.
  unfold retries. revert a. induction k as [|k IH]; intro a; [reflexivity|].
  cbn [seq flat_map map]. rewrite sleeps_app, IH. reflexivity.
Qed.

Lemma posts_to_retries (url : endpoint) (keyword : string) (a k : nat) :
  posts_to url (retries url keyword a k) = seq a k.
Proof.
  unfold retries. revert a. induction k as [|k IH]; intro a; [reflexivity|].
  cbn [seq flat_map]. rewrite posts_to_app, IH. now destruct url.
Qed.

Lemma posts_to_self (url : endpoint) (keyword : string) (a : nat) :
  posts_to url [Post url keyword a] = [a].
Proof. now destruct url. Qed.

(** The state of the loop when it reaches attempt [k]. *)
Lemma fetch_reaches (url : endpoint) (session : ClientSession)
    (keyword : string) (k : nat) :
  (k < MAX_RETRIES)%nat ->
  (forall i, (i < k)%nat -> retried (session url i)) ->
  fetch url session keyword =
  (Acquire :: (retries url keyword 0 k
     ++ fst (retry_loop url session keyword (seq k (MAX_RETRIES - k))))
     ++ [Release],
   (keyword, snd (retry_loop url session keyword (seq k (MAX_RETRIES - k))))).
Proof.
  intros Hk Hret. unfold fetch.
  rewrite (retry_loop_retried url session keyword k 0 MAX_RETRIES);
    [reflexivity | lia | lia | intros i Hi; apply Hret; lia].
Qed.



(** C6 fails as stated: the error body is read inside the [try].  Against
    a provider whose every answer is a 500 that breaks off before its body
    is read, the first attempt receives a status that is neither 200 nor
    429, and yet the fetch sleeps and posts again, twice, before it
    fails. *)
Lemma error_status_retried_when_body_unreadable :
  broken_500 organic_live_advanced 0%nat
    = Unreadable 500 (ReadClientError "Response payload is not completed") /\
  fetch_serp_data broken_500 "shoes" =
    ([Acquire;
      Post organic_live_advanced "shoes" 0; Sleep 1%float;
      Post organic_live_advanced "shoes" 1; Sleep 2%float;
      Post organic_live_advanced "shoes" 2;
      Stderr (ConnectionError organic_live_advanced "shoes"
                "Response payload is not completed");
      Release],
     ("shoes"%string, PNone)) /\
  posts_to organic_live_advanced (fst (fetch_serp_data broken_500 "shoes"))
    = [0; 1; 2]%nat /\
  sleeps (fst (fetch_serp_data broken_500 "shoes")) = [1; 2]%float.
Proof. repeat split. Qed.

(** C6, amended: when an attempt of a fetch is answered by a status that is
    neither 200 nor 429 and the body of that answer is read
    ([response.text()] returns), the fetch returns failure at once: that
    attempt is the last POST, no delay follows it, and the events are those
    of the retried attempts before it, the POST, the error line and the
    release of the permit, whatever the number of attempts left. *)
Theorem fetch_other_status_fails_immediately (url : endpoint)
    (session : ClientSession) (keyword : string) (k : nat)
    (status : Z) (data : Any) (text : string) :
  (k < MAX_RETRIES)%nat ->
  (forall i, (i < k)%nat -> retried (session url i)) ->
  session url k = Response status data text ->
  status <> 200 -> status <> 429 ->
  fetch url session keyword =
    (Acquire :: retries url keyword 0 k
       ++ [Post url keyword k;
           Stderr (ApiError url keyword status (substring 0 200 text));
           Release],
     (keyword, PNone)) /\
  posts_to url (fst (fetch url session keyword)) = seq 0 (S k) /\
  sleeps (fst (fetch url session keyword)) = map backoff_delay (seq 0 k).
Proof.
  intros Hk Hret Hk' H200 H429.
  assert (E : fetch url session keyword =
    (Acquire :: retries url keyword 0 k
       ++ [Post url keyword k;
           Stderr (ApiError url keyword status (substring 0 200 text));
           Release],
     (keyword, PNone))).
  { rewrite (fetch_reaches url session keyword k Hk Hret).
    destruct (MAX_RETRIES - k)%nat as [|m] eqn:Hm; [lia|].
    cbn [seq retry_loop]. rewrite Hk'.
    apply Z.eqb_neq in H200, H429. rewrite H200, H429. cbn [fst snd].
    now rewrite <- app_assoc. }
  rewrite E. cbn [fst]. split; [reflexivity|]. split.
  - change (Acquire :: ?l ++ ?r) with ([Acquire] ++ l ++ r).
    rewrite !posts_to_app, posts_to_retries.
    change [Post url keyword k; ?x; ?y] with ([Post url keyword k] ++ [x; y]).
    rewrite posts_to_app, posts_to_self, seq_S.
    cbn [posts_to flat_map app Nat.add]. rewrite ?app_nil_r. reflexivity.
  - change (Acquire :: ?l ++ ?r) with ([Acquire] ++ l ++ r).
    rewrite !sleeps_app, sleeps_retries. cbn [sleeps flat_map app].
    rewrite ?app_nil_r. reflexivity.
Qed.

Lemma fetch_other_status_fails_immediately_witness :
  fetch_serp_data timeout_then_404 "shoes" =
    ([Acquire;
      Post organic_live_advanced "shoes" 0; Sleep 1%float;
      Post organic_live_advanced "shoes" 1;
      Stderr (ApiError organic_live_advanced "shoes" 404 "Not Found");
      Release],
     ("shoes"%string, PNone)).
Proof.
  apply (fetch_other_status_fails_immediately organic_live_advanced
           timeout_then_404 "shoes" 1 404 PNone "Not Found").
  - unfold MAX_RETRIES. lia.
  - intros i Hi. assert (i = 0%nat) as -> by lia. exact I.
  - reflexivity.
  - lia.
  - lia.
Defined.

(** C4, evaluated: a fetch whose attempts all time out and a fetch whose
    attempts are all answered by 429 both make [MAX_RETRIES] attempts and
    both fail, but the delays differ: the 429 branch sleeps after every
    attempt, the last one included, while the timeout branch does not sleep
    after the last attempt. *)
Theorem rate_limit_and_timeout_backoff_differ :
  snd (fetch_serp_data always_429 "shoes") = ("shoes"%string, PNone) /\
  snd (fetch_serp_data always_timeout "shoes") = ("shoes"%string, PNone) /\
  posts_to organic_live_advanced (fst (fetch_serp_data always_429 "shoes"))
    = [0; 1; 2]%nat /\
  posts_to organic_live_advanced (fst (fetch_serp_data always_timeout "shoes"))
    = [0; 1; 2]%nat /\
  sleeps (fst (fetch_serp_data always_429 "shoes")) = [1; 2; 4]%float /\
  sleeps (fst (fetch_serp_data always_timeout "shoes")) = [1; 2]%float /\
  sleeps (fst (fetch_serp_data always_429 "shoes")) <>
  sleeps (fst (fetch_serp_data always_timeout "shoes")).
Proof.
  repeat split; try reflexivity. cbv. discriminate.
Qed.

(** ** Per-keyword orchestrator *)

(** The orchestrator, case by case. *)
Lemma process_single_keyword_cases (session : ClientSession)
    (keyword : string) (stats : ProcessingStats) :
  let primary := fetch_serp_data session keyword in
  let serp_response := snd (snd primary) in
  let ai_mode := fetch_ai_mode_data session keyword in
  let ai_mode_response := snd (snd ai_mode) in
  process_single_keyword session keyword stats =
  if truthy serp_response then
    match _extract_ai_overview_rows serp_response keyword with
    | Raise e => (fst primary, stats, Raise e)
    | Ok ao =>
        match _extract_organic_rows serp_response keyword with
        | Raise e => (fst primary, stats, Raise e)
        | Ok org =>
            let stats1 :=
              add_organic_rows (length_Z org)
                (add_ai_overview_rows (length_Z ao) stats) in
            if truthy ai_mode_response then
              match _extract_ai_mode_rows ai_mode_response keyword with
              | Raise e => (fst primary ++ fst ai_mode, stats1, Raise e)
              | Ok am =>
                  (fst primary ++ fst ai_mode,
                   add_completed 1 (add_ai_mode_rows (length_Z am) stats1),
                   Ok ((ao ++ org) ++ am))
              end
            else
              (fst primary ++ fst ai_mode, add_completed 1 stats1, Ok (ao ++ org))
        end
    end
  else (fst primary, add_failed 1 stats, Ok []).
Proof.
  cbv zeta. unfold process_single_keyword, LOAD_GOOGLE_AI_MODE.
  unfold bind at 1. unfold await at 1. cbv beta iota.
  destruct (fetch_serp_data session keyword) as [evs1 [kw1 resp]].
  cbn [fst snd].
  destruct (truthy resp).
  2:{ unfold bind, update, ret. cbn. now rewrite app_nil_r. }
  unfold bind at 1. unfold call at 1.
  destruct (_extract_ai_overview_rows resp keyword) as [ao|e];
    [|now rewrite ?app_nil_r].
  unfold bind at 1. unfold call at 1.
  destruct (_extract_organic_rows resp keyword) as [org|e];
    [|now rewrite ?app_nil_r].
  unfold bind, update, await, call, ret. cbn [fst snd app].
  destruct (fetch_ai_mode_data session keyword) as [evs2 [kw2 resp2]].
  cbn [fst snd].
  destruct (truthy resp2).
  - destruct (_extract_ai_mode_rows resp2 keyword) as [am|e];
      cbn [app]; now rewrite ?app_nil_r.
  - cbn [app]. now rewrite ?app_nil_r.
Qed.

Lemma retry_loop_all_fail (url : endpoint) (session : ClientSession)
    (keyword : string) (attempts : list nat) :
  (forall i, In i attempts -> attempt_fails (session url i)) ->
  snd (retry_loop url session keyword attempts) = PNone.
Proof.
  induction attempts as [|a rest IH]; intros Hfail; [reflexivity|].
  cbn [retry_loop].
  specialize (IH (fun i Hi => Hfail i (or_intror Hi))).
  pose proof (Hfail a (or_introl eq_refl)) as Ha.
  destruct (session url a) as [status data text| |e|status err]; cbn in Ha.
  - apply Z.eqb_neq in Ha. rewrite Ha.
    destruct (status =? 429); [|reflexivity].
    now destruct (retry_loop url session keyword rest).
  - destruct (a <? MAX_RETRIES - 1)%nat; [|reflexivity].
    now destruct (retry_loop url session keyword rest).
  - destruct (a <? MAX_RETRIES - 1)%nat; [|reflexivity].
    now destruct (retry_loop url session keyword rest).
  - destruct (status =? 429), (a <? MAX_RETRIES - 1)%nat;
      try reflexivity; now destruct (retry_loop url session keyword rest).
Qed.

(** A fetch posts to its own URL only. *)
Lemma retry_loop_posts_elsewhere (url url' : endpoint)
    (session : ClientSession) (keyword : string) (attempts : list nat) :
  url <> url' ->
  posts_to url' (fst (retry_loop url session keyword attempts)) = [].
Proof.
  intros Hne. induction attempts as [|a rest IH]; [reflexivity|].
  cbn [retry_loop].
  assert (Hp : forall evs, posts_to url' (Post url keyword a :: evs)
                           = posts_to url' evs).
  { intros evs. destruct url, url'; try reflexivity; now elim Hne. }
  destruct (session url a) as [status data text| |e|status err];
    repeat match goal with
      | |- context [if ?b then _ else _] => destruct b
      | |- context [let '(_, _) := ?p in _] => destruct p
      end;
    cbn [fst] in *; rewrite ?Hp; auto.
Qed.

Lemma fetch_posts_elsewhere (url url' : endpoint) (session : ClientSession)
    (keyword : string) :
  url <> url' -> posts_to url' (fst (fetch url session keyword)) = [].
Proof.
  intros Hne. unfold fetch.
  pose proof (retry_loop_posts_elsewhere url url' session keyword
                (seq 0 MAX_RETRIES) Hne) as H.
  destruct (retry_loop url session keyword (seq 0 MAX_RETRIES)) as [evs r].
  cbn [fst] in *.
  change (Acquire :: evs ++ [Release]) with ([Acquire] ++ evs ++ [Release]).
  now rewrite !posts_to_app, H.
Qed.

(** C1: when every attempt of the primary fetch fails, the orchestrator
    adds exactly 1 to [failed], leaves [completed] alone, returns no rows
    and never posts to the AI-mode endpoint: its events are those of the
    primary fetch. *)
Theorem primary_failure_is_one_failed (session : ClientSession)
    (keyword : string) (stats : ProcessingStats) :
  (forall i, (i < MAX_RETRIES)%nat ->
     attempt_fails (session organic_live_advanced i)) ->
  exists evs stats',
    process_single_keyword session keyword stats = (evs, stats', Ok []) /\
    failed stats' = failed stats + 1 /\
    completed stats' = completed stats /\
    evs = fst (fetch_serp_data session keyword) /\
    posts_to ai_mode_live_advanced evs = [].
Proof.
  intros Hfail.
  assert (Hnone : snd (snd (fetch_serp_data session keyword)) = PNone).
  { unfold fetch_serp_data, fetch.
    pose proof (retry_loop_all_fail organic_live_advanced session keyword
                  (seq 0 MAX_RETRIES)) as H.
    destruct (retry_loop organic_live_advanced session keyword
                (seq 0 MAX_RETRIES)) as [evs r].
    cbn [fst snd] in *. apply H. intros i Hi. apply Hfail.
    apply in_seq in Hi. lia. }
  exists (fst (fetch_serp_data session keyword)), (add_failed 1 stats).
  rewrite process_single_keyword_cases. cbv zeta. rewrite Hnone. cbn [truthy].
  repeat split.
  apply fetch_posts_elsewhere. discriminate.
Qed.

Lemma primary_failure_is_one_failed_witness :
  exists evs stats',
    process_single_keyword always_429 "shoes" (new_stats 1)
      = (evs, stats', Ok []) /\
    failed stats' = failed (new_stats 1) + 1 /\
    completed stats' = completed (new_stats 1) /\
    evs = fst (fetch_serp_data always_429 "shoes") /\
    posts_to ai_mode_live_advanced evs = [].
Proof.
  apply (primary_failure_is_one_failed always_429 "shoes" (new_stats 1)).
  intros i _. cbn. lia.
Defined.

(** C10: when the primary fetch is answered by HTTP 200 with a falsy
    decoded body (the empty object or array, [null], zero, ...), the fetch
    returns that body, and the orchestrator treats the keyword as failed:
    [failed] gets 1 more, [completed] does not change, there are no rows,
    and nothing is posted to the AI-mode endpoint. *)
Theorem falsy_body_is_a_failure (session : ClientSession) (keyword : string)
    (stats : ProcessingStats) (k : nat) (data : Any) (text : string) :
  (k < MAX_RETRIES)%nat ->
  (forall i, (i < k)%nat -> retried (session organic_live_advanced i)) ->
  session organic_live_advanced k = Response 200 data text ->
  truthy data = false ->
  snd (fetch_serp_data session keyword) = (keyword, data) /\
  exists evs stats',
    process_single_keyword session keyword stats = (evs, stats', Ok []) /\
    failed stats' = failed stats + 1 /\
    completed stats' = completed stats /\
    posts_to ai_mode_live_advanced evs = [].
Proof.
  intros Hk Hret H200 Hfalsy.
  assert (E : snd (fetch_serp_data session keyword) = (keyword, data)).
  { unfold fetch_serp_data.
    rewrite (fetch_reaches organic_live_advanced session keyword k Hk Hret).
    destruct (MAX_RETRIES - k)%nat as [|m] eqn:Hm; [lia|].
    cbn [seq retry_loop]. rewrite H200. reflexivity. }
  split; [exact E|].
  exists (fst (fetch_serp_data session keyword)), (add_failed 1 stats).
  rewrite process_single_keyword_cases. cbv zeta. rewrite E. cbn [snd].
  rewrite Hfalsy. repeat split.
  apply fetch_posts_elsewhere. discriminate.
Qed.

Lemma falsy_body_is_a_failure_witness :
  snd (fetch_serp_data empty_body "shoes") = ("shoes"%string, PDict []) /\
  exists evs stats',
    process_single_keyword empty_body "shoes" (new_stats 1)
      = (evs, stats', Ok []) /\
    failed stats' = failed (new_stats 1) + 1 /\
    completed stats' = completed (new_stats 1) /\
    posts_to ai_mode_live_advanced evs = [].
Proof.
  apply (falsy_body_is_a_failure empty_body "shoes" (new_stats 1) 0
           (PDict []) "{}").
  - unfold MAX_RETRIES. lia.
  - intros i Hi. lia.
  - reflexivity.
  - reflexivity.
Defined.

(** C2 fails as stated: on a decoded body whose ["tasks"] is a number the
    extractor raises, the exception leaves the orchestrator, and neither
    [completed] nor [failed] has been incremented. *)
Lemma counters_untouched_when_extraction_raises :
  process_single_keyword malformed_body "shoes" (new_stats 1) =
    ([Acquire; Post organic_live_advanced "shoes" 0; Release],
     new_stats 1, Raise TypeError) /\
  ~ (forall session keyword stats,
       let stats' := snd (fst (process_single_keyword session keyword stats)) in
       (completed stats' = completed stats + 1 /\ failed stats' = failed stats)
       \/ (completed stats' = completed stats /\ failed stats' = failed stats + 1)).
Proof.
  split; [reflexivity|].
  intros H. specialize (H malformed_body "shoes"%string (new_stats 1)).
  cbn in H. lia.
Qed.

(** C2, amended: whenever the orchestrator returns, exactly one of
    [completed] and [failed] has been incremented, by exactly 1, and a
    keyword whose [failed] was incremented returned no rows; when an
    extractor raises instead, neither counter has changed. *)
Theorem one_counter_per_keyword (session : ClientSession) (keyword : string)
    (stats : ProcessingStats) :
  let '(_, stats', r) := process_single_keyword session keyword stats in
  match r with
  | Ok rows =>
      (completed stats' = completed stats + 1 /\ failed stats' = failed stats)
      \/ (completed stats' = completed stats /\ failed stats' = failed stats + 1
          /\ rows = [])
  | Raise _ =>
      completed stats' = completed stats /\ failed stats' = failed stats
  end.
Proof.
  rewrite process_single_keyword_cases. cbv zeta.
  repeat match goal with
    | |- context [if ?b then _ else _] => destruct b
    | |- context [match ?r with Ok _ => _ | Raise _ => _ end] => destruct r
    end; cbn; auto.
Qed.

(** C5 fails as stated: a primary fetch answered by HTTP 200 with an empty
    object succeeds, yet [completed] is not incremented and [failed] is;
    and on a body the extractor raises on, [completed] is not incremented
    either. *)
Lemma completed_not_incremented_after_200 :
  empty_body organic_live_advanced 0%nat = Response 200 (PDict []) "{}" /\
  fetch_serp_data empty_body "shoes" =
    ([Acquire; Post organic_live_advanced "shoes" 0; Release],
     ("shoes"%string, PDict [])) /\
  process_single_keyword empty_body "shoes" (new_stats 1) =
    ([Acquire; Post organic_live_advanced "shoes" 0; Release],
     mkStats 1 0 1 0 0 0, Ok []) /\
  fetch_serp_data malformed_body "shoes" =
    ([Acquire; Post organic_live_advanced "shoes" 0; Release],
     ("shoes"%string, PDict [("tasks"%string, PInt 5)])) /\
  process_single_keyword malformed_body "shoes" (new_stats 1) =
    ([Acquire; Post organic_live_advanced "shoes" 0; Release],
     mkStats 1 0 0 0 0 0, Raise TypeError).
Proof. repeat split. Qed.

(** C5, amended: when the primary fetch returns a truthy body and the
    orchestrator returns (no extractor raises), [completed] has been
    incremented exactly once and [failed] not at all, whatever the outcome
    of the AI-mode fetch; and when the AI-mode fetch fails, the rows are the
    keyword's AI-overview rows followed by its organic rows, and the
    AI-mode row counter is unchanged. *)
Theorem primary_success_is_one_completed (session : ClientSession)
    (keyword : string) (stats stats' : ProcessingStats) (data : Any)
    (evs : list event) (rows : list Row) :
  snd (fetch_serp_data session keyword) = (keyword, data) ->
  truthy data = true ->
  process_single_keyword session keyword stats = (evs, stats', Ok rows) ->
  completed stats' = completed stats + 1 /\
  failed stats' = failed stats /\
  (snd (snd (fetch_ai_mode_data session keyword)) = PNone ->
   exists ai_overview organic,
     _extract_ai_overview_rows data keyword = Ok ai_overview /\
     _extract_organic_rows data keyword = Ok organic /\
     rows = ai_overview ++ organic /\
     ai_mode_rows stats' = ai_mode_rows stats).
Proof.
  intros Hfetch Htruthy. rewrite process_single_keyword_cases. cbv zeta.
  rewrite Hfetch. cbn [snd]. rewrite Htruthy.
  destruct (_extract_ai_overview_rows data keyword) as [ao|e]; [|discriminate].
  destruct (_extract_organic_rows data keyword) as [org|e]; [|discriminate].
  destruct (truthy (snd (snd (fetch_ai_mode_data session keyword)))) eqn:Hai.
  - destruct (_extract_ai_mode_rows _ keyword) as [am|e]; [|discriminate].
    intros [= <- <- <-]. cbn. repeat split; try lia.
    intros Hnone. rewrite Hnone in Hai. discriminate.
  - intros [= <- <- <-]. cbn. repeat split; try lia.
    intros _. exists ao, org. repeat split.
Qed.

Lemma primary_success_is_one_completed_witness :
  completed (snd (fst (process_single_keyword ai_mode_down "shoes" (new_stats 1))))
    = completed (new_stats 1) + 1 /\
  failed (snd (fst (process_single_keyword ai_mode_down "shoes" (new_stats 1))))
    = failed (new_stats 1).
Proof.
  pose proof (primary_success_is_one_completed ai_mode_down "shoes"
                (new_stats 1) _ (PDict sample_response) _ _
                eq_refl eq_refl eq_refl) as [Hc [Hf _]].
  split; [exact Hc | exact Hf].
Defined.

(** ** Entry point *)

Lemma load_keywords_events (keywords_file : option (list string)) :
  filter is_network (fst (_load_keywords keywords_file)) = [].
Proof. now destruct keywords_file. Qed.

(** C8: when the keywords file is missing, or yields no keyword, [main]
    returns 1 and has performed no network event (it has only written to
    the error channel); when there is at least one keyword and the run
    completes normally (the batch raises no exception and the elapsed time
    is not zero), [main] returns 0. *)
Theorem main_exit_code (keywords_file : option (list string))
    (net : nat -> ClientSession) (order : list nat) (elapsed : float) :
  (keywords_file = None \/ snd (_load_keywords keywords_file) = [] ->
   snd (main keywords_file net order elapsed) = Ok 1 /\
   filter is_network (fst (main keywords_file net order elapsed)) = [] /\
   fst (main keywords_file net order elapsed) =
     fst (_load_keywords keywords_file) ++ [Stderr NoKeywordsFound]) /\
  (snd (_load_keywords keywords_file) <> [] ->
   forall evs stats all_rows,
     process_keywords_async (snd (_load_keywords keywords_file)) net order
       = (evs, stats, Ok all_rows) ->
     PrimFloat.eqb elapsed 0%float = false ->
     main keywords_file net order elapsed =
       (fst (_load_keywords keywords_file) ++ evs
          ++ [_write_unified_csv all_rows; _write_json all_rows],
        Ok 0)).
Proof.
  split.
  - intros H.
    assert (Hnil : snd (_load_keywords keywords_file) = [])
      by (destruct H as [-> | H]; [reflexivity | exact H]).
    pose proof (load_keywords_events keywords_file) as Hev.
    unfold main. destruct (_load_keywords keywords_file) as [evs0 keywords].
    cbn [fst snd] in *. subst keywords. cbn [fst snd].
    repeat split. rewrite filter_app, Hev. reflexivity.
  - intros Hne evs stats all_rows Hrun Hclock. unfold main.
    destruct (_load_keywords keywords_file) as [evs0 keywords].
    cbn [fst snd] in *. destruct keywords as [|kw keywords]; [congruence|].
    rewrite Hrun, Hclock. reflexivity.
Qed.

Lemma main_exit_code_witness :
  snd (main None (fun _ => ai_mode_down) [] 2%float) = Ok 1 /\
  snd (main (Some ["  "; ""]%string) (fun _ => ai_mode_down) [] 2%float) = Ok 1 /\
  snd (main (Some [" shoes "]%string) (fun _ => ai_mode_down) [0%nat] 2%float)
    = Ok 0.
Proof.
  split; [|split].
  - apply (main_exit_code None (fun _ => ai_mode_down) [] 2%float).
    left. reflexivity.
  - apply (main_exit_code (Some ["  "; ""]%string) (fun _ => ai_mode_down) []
             2%float).
    right. reflexivity.
  - erewrite (proj2 (main_exit_code (Some [" shoes "]%string)
                       (fun _ => ai_mode_down) [0%nat] 2%float)).
    + reflexivity.
    + discriminate.
    + reflexivity.
    + reflexivity.
Defined.

(** ** Interleaved execution under the semaphore *)

Lemma protocol_app (h : bool) (l1 l2 : list event) :
  protocol h (l1 ++ l2) =
  match protocol h l1 with
  | Some h' => protocol h' l2
  | None => None
  end.
Proof.
  revert h. induction l1 as [|e l1 IH]; intro h; [reflexivity|].
  destruct e, h; cbn [app protocol]; auto.
Qed.

(** Inside the loop the permit is neither released nor acquired again. *)
Lemma retry_loop_holds_permit (url : endpoint) (session : ClientSession)
    (keyword : string) (attempts : list nat) :
  protocol true (fst (retry_loop url session keyword attempts)) = Some true /\
  forallb permit_free (fst (retry_loop url session keyword attempts)) = true.
Proof.
  induction attempts as [|a rest [IHp IHf]]; [split; reflexivity|].
  cbn [retry_loop].
  destruct (session url a) as [status data text| |e|status err];
    repeat match goal with
      | |- context [if ?b then _ else _] => destruct b
      | |- context [let '(_, _) := ?p in _] => destruct p
      end;
    cbn [fst protocol forallb permit_free andb] in *; auto.
Qed.

Lemma fetch_protocol (url : endpoint) (session : ClientSession)
    (keyword : string) :
  protocol false (fst (fetch url session keyword)) = Some false.
Proof.
  unfold fetch.
  destruct (retry_loop_holds_permit url session keyword (seq 0 MAX_RETRIES))
    as [Hp _].
  destruct (retry_loop url session keyword (seq 0 MAX_RETRIES)) as [evs r].
  cbn [fst] in *. cbn [protocol]. now rewrite protocol_app, Hp.
Qed.

Lemma keyword_events_protocol (session : ClientSession) (keyword : string) :
  protocol false (keyword_events session keyword) = Some false.
Proof.
  unfold keyword_events. rewrite process_single_keyword_cases. cbv zeta.
  pose proof (fetch_protocol organic_live_advanced session keyword) as H1.
  pose proof (fetch_protocol ai_mode_live_advanced session keyword) as H2.
  fold fetch_serp_data in H1. fold fetch_ai_mode_data in H2.
  repeat match goal with
    | |- context [if ?b then _ else _] => destruct b
    | |- context [match ?r with Ok _ => _ | Raise _ => _ end] => destruct r
    end; cbn [fst]; rewrite ?protocol_app, ?H1; auto.
Qed.

Lemma start_ok (keywords : list string) (net : nat -> ClientSession) :
  sched_ok (start keywords net).
Proof.
  unfold start, sched_ok. cbn [permits coroutines].
  generalize (combine (seq 0 (List.length keywords)) keywords) as iks.
  intro iks. split.
  - match goal with |- _ + ?t = _ => assert (E : t = 0) end.
    { unfold total_held. induction iks as [|ik iks IH]; [reflexivity|].
      cbn [map fold_right fst held]. now rewrite IH. }
    rewrite E. lia.
  - apply Forall_forall. intros c Hc. apply in_map_iff in Hc.
    destruct Hc as [ik [<- _]]. exists false. cbn [fst snd held].
    rewrite keyword_events_protocol. repeat split; try discriminate.
    intros [H|H]; discriminate H.
Qed.

Lemma total_held_replace (i : nat) (c c' : coroutine) (cs : list coroutine) :
  nth_error cs i = Some c ->
  total_held (replace_nth i c' cs)
    = total_held cs - held (fst c) + held (fst c').
Proof.
  unfold total_held. revert i.
  induction cs as [|x cs IH]; intros [|i] H; try discriminate.
  - injection H as ->. cbn [replace_nth fold_right]. lia.
  - cbn [nth_error] in H. cbn [replace_nth fold_right].
    rewrite (IH i H). lia.
Qed.

Lemma Forall_replace {A} (P : A -> Prop) (i : nat) (x : A) (l : list A) :
  Forall P l -> P x -> Forall P (replace_nth i x l).
Proof.
  intros Hl Hx. revert i. induction Hl as [|y l Hy Hl IH]; intros [|i]; cbn;
    constructor; auto.
Qed.

Lemma step_ok (s s' : sched) : sched_ok s -> step s s' -> sched_ok s'.
Proof.
  intros [Hsum Hall] Hstep.
  destruct Hstep as [s i done e rest Hnth Hen].
  assert (Hc : coroutine_ok (done, e :: rest)).
  { eapply Forall_forall; [exact Hall|]. eapply nth_error_In; exact Hnth. }
  destruct Hc as [h [Hheld [Hproto _]]]. cbn [fst snd] in *.
  unfold sched_ok. cbn [permits coroutines].
  rewrite (total_held_replace i (done, e :: rest) _ _ Hnth). cbn [fst].
  destruct e, h; cbn [protocol] in Hproto; try congruence;
    cbn [held permits_after enabled] in *;
    (split;
     [ lia
     | apply Forall_replace; [exact Hall|];
       first [ exists true; cbn [fst snd held];
               repeat split; [lia | exact Hproto]
             | exists false; cbn [fst snd held];
               repeat split;
               [lia | exact Hproto | intros [H|H]; discriminate H] ] ]).
Qed.

Lemma reachable_ok (s0 s : sched) : sched_ok s0 -> reachable s0 s -> sched_ok s.
Proof.
  intros H0 Hr. induction Hr as [|s s' _ IH Hstep]; [exact H0|].
  eapply step_ok; eauto.
Qed.

Lemma busy_le_held (p : coroutine -> bool) (cs : list coroutine) :
  (forall c, p c = true -> in_flight c = true \/ backing_off c = true) ->
  Forall coroutine_ok cs ->
  Z.of_nat (List.length (filter p cs)) <= total_held cs.
Proof.
  intros Hp.
  induction 1 as [|c cs [h [Hh [_ Hfl]]] _ IH]; cbn [filter total_held fold_right].
  - cbn. lia.
  - fold (total_held cs).
    destruct (p c) eqn:Ec.
    + rewrite (Hfl (Hp c Ec)) in Hh. cbn [List.length]. lia.
    + destruct h; lia.
Qed.

(** C9: in every state the batch can reach, whatever the keyword list and
    the interleaving, the number of requests in flight (to either endpoint)
    is at most [MAX_CONCURRENT_REQUESTS], which is 20, and so is the number
    of logical calls under way (in flight or sleeping between two
    attempts); a coroutine in either state holds a permit; and
    a fetch acquires the permit once, before its first attempt, and
    releases it once, after its last, so that all the retry attempts of one
    logical call run under the same permit. *)
Theorem in_flight_bounded_by_permits (keywords : list string)
    (net : nat -> ClientSession) (s : sched) :
  reachable (start keywords net) s ->
  (in_flight_count s <= MAX_CONCURRENT_REQUESTS)%nat /\
  (busy_count s <= MAX_CONCURRENT_REQUESTS)%nat /\
  MAX_CONCURRENT_REQUESTS = 20%nat /\
  (forall c, In c (coroutines s) -> busy c = true -> held (fst c) = 1) /\
  (forall url session keyword,
     fst (fetch url session keyword) =
       Acquire :: fst (retry_loop url session keyword (seq 0 MAX_RETRIES))
         ++ [Release] /\
     forallb permit_free
       (fst (retry_loop url session keyword (seq 0 MAX_RETRIES))) = true).
Proof.
  intros Hr.
  destruct (reachable_ok _ _ (start_ok keywords net) Hr) as [Hsum Hall].
  split; [|split; [|split; [|split]]].
  - pose proof (busy_le_held in_flight _ (fun c H => or_introl H) Hall) as Hle.
    unfold in_flight_count. lia.
  - assert (Hb : forall c, busy c = true ->
                           in_flight c = true \/ backing_off c = true)
      by (intros c H; now apply orb_true_iff in H).
    pose proof (busy_le_held busy _ Hb Hall) as Hle.
    unfold busy_count. lia.
  - reflexivity.
  - intros c Hc Hbusy. apply orb_true_iff in Hbusy.
    destruct (proj1 (Forall_forall _ _) Hall c Hc) as [h [Hh [_ Hfl]]].
    now rewrite (Hfl Hbusy) in Hh.
  - intros url session keyword. split.
    + unfold fetch.
      now destruct (retry_loop url session keyword (seq 0 MAX_RETRIES)).
    + apply retry_loop_holds_permit.
Qed.

Lemma in_flight_bounded_by_permits_witness :
  (in_flight_count shoes_in_flight <= MAX_CONCURRENT_REQUESTS)%nat /\
  in_flight_count shoes_in_flight = 1%nat.
Proof.
  split; [|reflexivity].
  apply (in_flight_bounded_by_permits ["shoes"; "boots"]%string
           (fun _ => rate_limited_twice)).
  eapply reachable_step.
  - eapply reachable_step.
    + apply reachable_start.
    + exact (step_event
               (start ["shoes"; "boots"]%string (fun _ => rate_limited_twice))
               0 [] Acquire
               (tl (keyword_events rate_limited_twice "shoes"))
               eq_refl (Nat.lt_0_succ 19)).
  - exact (step_event
             (mkSched 19
                [([Acquire], tl (keyword_events rate_limited_twice "shoes"));
                 ([], keyword_events rate_limited_twice "boots")])
             0 [Acquire] (Post organic_live_advanced "shoes" 0)
             (tl (tl (keyword_events rate_limited_twice "shoes")))
             eq_refl I).
Defined.

(** * Further properties *)

(** ** Extraction: what every row satisfies *)

Lemma rbind_Ok {A B} (r : result A) (k : A -> result B) (b : B) :
  rbind r k = Ok b -> exists a, r = Ok a /\ k a = Ok b.
Proof. destruct r as [a|e]; [eauto | discriminate]. Qed.

Lemma get_Ok (v : Any) (k : string) (x : Any) :
  get v k = Ok x -> exists d, v = PDict d /\ x = dget d k.
Proof.
  destruct v; try discriminate. intros [= <-]. eauto.
Qed.

Lemma for_each_Forall (P : Row -> Prop) (body : Any -> result (list Row))
    (xs : list Any) :
  (forall x rows, In x xs -> body x = Ok rows -> Forall P rows) ->
  forall rows, for_each xs body = Ok rows -> Forall P rows.
Proof.
  induction xs as [|x xs IH]; intros Hbody rows H.
  - injection H as <-. constructor.
  - cbn [for_each] in H.
    apply rbind_Ok in H. destruct H as [rs [Hx H]].
    apply rbind_Ok in H. destruct H as [rest [Hxs H]].
    injection H as <-. apply Forall_app. split.
    + exact (Hbody x rs (or_introl eq_refl) Hx).
    + apply IH; [|exact Hxs]. intros y rows' Hy. apply Hbody. now right.
Qed.

Lemma keyword_ok_or (fallback : string) (v w : Any) :
  keyword_ok fallback w -> keyword_ok fallback (py_or v w).
Proof.
  intros Hw. unfold py_or. destruct (truthy v) eqn:E; [now left | exact Hw].
Qed.

(** The walk hands every item to [item_rows] with a keyword that is truthy
    or the fallback. *)
Lemma walk_items_Forall (P : Row -> Prop) (fallback : string)
    (item_rows : Any -> Any -> result (list Row)) :
  (forall kw item rows, keyword_ok fallback kw ->
     item_rows kw item = Ok rows -> Forall P rows) ->
  forall response_dict rows,
    walk_items response_dict fallback item_rows = Ok rows -> Forall P rows.
Proof.
  intros Hitem response_dict rows H. unfold walk_items in H.
  apply rbind_Ok in H. destruct H as [tasks [_ H]].
  apply rbind_Ok in H. destruct H as [tasks' [_ H]].
  revert rows H. apply for_each_Forall. intros task rows _ H.
  apply rbind_Ok in H. destruct H as [task_data [_ H]].
  apply rbind_Ok in H. destruct H as [kw [_ H]].
  apply rbind_Ok in H. destruct H as [results [_ H]].
  apply rbind_Ok in H. destruct H as [results' [_ H]].
  revert rows H. apply for_each_Forall. intros res rows _ H.
  apply rbind_Ok in H. destruct H as [rkw [_ H]].
  apply rbind_Ok in H. destruct H as [items [_ H]].
  apply rbind_Ok in H. destruct H as [items' [_ H]].
  revert rows H. apply for_each_Forall. intros item rows _ H.
  eapply Hitem; [|exact H].
  apply keyword_ok_or, keyword_ok_or. now right.
Qed.

Lemma organic_item_rows_ok (fallback : string) (kw item : Any)
    (rows : list Row) :
  keyword_ok fallback kw ->
  organic_item_rows kw item = Ok rows ->
  Forall (row_ok "organic" fallback) rows.
Proof.
  intros Hkw H. unfold organic_item_rows in H.
  apply rbind_Ok in H. destruct H as [ty [Hty H]].
  apply get_Ok in Hty. destruct Hty as [d [-> _]].
  destruct (ne_str ty "organic").
  - injection H as <-. constructor.
  - cbn [get rbind] in H. injection H as <-.
    constructor; [|constructor].
    split; [reflexivity|]. split; [reflexivity|].
    exists kw. split; [reflexivity | exact Hkw].
Qed.

Lemma reference_rows_ok (fallback : string) (kw md owner : Any)
    (rows : list Row) :
  keyword_ok fallback kw ->
  reference_rows kw md owner = Ok rows ->
  Forall (row_ok "ai_overview" fallback) rows.
Proof.
  intros Hkw H. unfold reference_rows in H.
  apply rbind_Ok in H. destruct H as [refs [_ H]].
  apply rbind_Ok in H. destruct H as [refs' [_ H]].
  revert rows H. apply for_each_Forall. intros ref rows _ H.
  apply rbind_Ok in H. destruct H as [row [Hrow H]].
  injection H as <-. constructor; [|constructor].
  unfold reference_row in Hrow.
  apply rbind_Ok in Hrow. destruct Hrow as [dom [Hdom Hrow]].
  apply get_Ok in Hdom. destruct Hdom as [d [-> _]].
  cbn [get rbind] in Hrow. injection Hrow as <-.
  split; [reflexivity|]. split; [reflexivity|].
  exists kw. split; [reflexivity | exact Hkw].
Qed.

Lemma ai_overview_item_rows_ok (fallback : string) (kw item : Any)
    (rows : list Row) :
  keyword_ok fallback kw ->
  ai_overview_item_rows kw item = Ok rows ->
  Forall (row_ok "ai_overview" fallback) rows.
Proof.
  intros Hkw H. unfold ai_overview_item_rows in H.
  apply rbind_Ok in H. destruct H as [ty [_ H]].
  destruct (ne_str ty "ai_overview").
  - injection H as <-. constructor.
  - apply rbind_Ok in H. destruct H as [ai_markdown [_ H]].
    apply rbind_Ok in H. destruct H as [direct [Hdirect H]].
    apply rbind_Ok in H. destruct H as [sub_items [_ H]].
    apply rbind_Ok in H. destruct H as [sub_items' [_ H]].
    apply rbind_Ok in H. destruct H as [nested [Hnested H]].
    injection H as <-. apply Forall_app. split.
    + eapply reference_rows_ok; eauto.
    + revert nested Hnested. apply for_each_Forall.
      intros sub_item rows _ H.
      apply rbind_Ok in H. destruct H as [md [_ H]].
      apply rbind_Ok in H. destruct H as [sub_rows [Hsub H]].
      apply rbind_Ok in H. destruct H as [components [_ H]].
      apply rbind_Ok in H. destruct H as [components' [_ H]].
      apply rbind_Ok in H. destruct H as [comp_rows [Hcomp H]].
      injection H as <-. apply Forall_app. split.
      * eapply reference_rows_ok; eauto.
      * revert comp_rows Hcomp. apply for_each_Forall.
        intros component rows _ H.
        apply rbind_Ok in H. destruct H as [cmd [_ H]].
        eapply reference_rows_ok; eauto.
Qed.

Lemma ai_mode_item_rows_ok (fallback : string) (kw item : Any)
    (rows : list Row) :
  keyword_ok fallback kw ->
  ai_mode_item_rows kw item = Ok rows ->
  Forall (row_ok "ai_mode" fallback) rows.
Proof.
  intros Hkw H. unfold ai_mode_item_rows in H.
  apply rbind_Ok in H. destruct H as [ty [_ H]].
  destruct (ne_str ty "ai_overview").
  - injection H as <-. constructor.
  - apply rbind_Ok in H. destruct H as [md [_ H]].
    apply rbind_Ok in H. destruct H as [refs [_ H]].
    apply rbind_Ok in H. destruct H as [n [_ H]].
    apply rbind_Ok in H. destruct H as [primary [_ H]].
    apply rbind_Ok in H. destruct H as [refs' [_ H]].
    apply rbind_Ok in H. destruct H as [ref_rows [Href H]].
    injection H as <-. constructor.
    + split; [reflexivity|]. split; [reflexivity|].
      exists kw. split; [reflexivity | exact Hkw].
    + revert ref_rows Href. apply for_each_Forall.
      intros ref rows _ H.
      apply rbind_Ok in H. destruct H as [dom [Hdom H]].
      apply get_Ok in Hdom. destruct Hdom as [d [-> _]].
      cbn [get rbind] in H. injection H as <-.
      constructor; [|constructor].
      split; [reflexivity|]. split; [reflexivity|].
      exists kw. split; [reflexivity | exact Hkw].
Qed.

(** X1: whatever the response document, every row an extractor returns
    carries the extractor's own type tag: "organic", "ai_overview" or
    "ai_mode". *)
Theorem extractors_tag_their_rows (response_dict : Any) (fallback : string) :
  (forall rows, _extract_organic_rows response_dict fallback = Ok rows ->
     Forall (fun r => lookup "result_type" r = Some (PStr "organic")) rows) /\
  (forall rows, _extract_ai_overview_rows response_dict fallback = Ok rows ->
     Forall (fun r => lookup "result_type" r = Some (PStr "ai_overview")) rows) /\
  (forall rows, _extract_ai_mode_rows response_dict fallback = Ok rows ->
     Forall (fun r => lookup "result_type" r = Some (PStr "ai_mode")) rows).
Proof.
  repeat split; intros rows H;
    [ apply (walk_items_Forall _ fallback _
               (organic_item_rows_ok fallback)) in H
    | apply (walk_items_Forall _ fallback _
               (ai_overview_item_rows_ok fallback)) in H
    | apply (walk_items_Forall _ fallback _
               (ai_mode_item_rows_ok fallback)) in H ];
    (eapply Forall_impl; [|exact H]); intros r Hr; apply Hr.
Qed.

(** X2: every key of every extracted row is one of [UNIFIED_FIELDNAMES], so
    the CSV writer has a column for each field of each row. *)
Theorem extracted_rows_have_only_csv_columns (response_dict : Any)
    (fallback : string) (rows : list Row) :
  _extract_organic_rows response_dict fallback = Ok rows \/
  _extract_ai_overview_rows response_dict fallback = Ok rows \/
  _extract_ai_mode_rows response_dict fallback = Ok rows ->
  Forall (fun r => forall k v, In (k, v) r -> In k UNIFIED_FIELDNAMES) rows.
Proof.
  assert (Hk : forall ty r, row_ok ty fallback r ->
                 forall k v, In (k, v) r -> In k UNIFIED_FIELDNAMES).
  { intros ty r [_ [Hf _]] k v Hin. unfold known_fields in Hf.
    rewrite forallb_forall in Hf. specialize (Hf _ Hin). cbn [fst] in Hf.
    unfold is_field in Hf. apply existsb_exists in Hf.
    destruct Hf as [k' [Hin' Heq]]. apply String.eqb_eq in Heq. now subst. }
  intros [H | [H | H]];
    [ apply (walk_items_Forall _ fallback _
               (organic_item_rows_ok fallback)) in H
    | apply (walk_items_Forall _ fallback _
               (ai_overview_item_rows_ok fallback)) in H
    | apply (walk_items_Forall _ fallback _
               (ai_mode_item_rows_ok fallback)) in H ];
    (eapply Forall_impl; [|exact H]); intros r Hr; eapply Hk; exact Hr.
Qed.

Lemma extracted_rows_have_only_csv_columns_witness :
  exists rows,
    _extract_ai_mode_rows (PDict sample_response) "shoes" = Ok rows /\
    Forall (fun r => forall k v, In (k, v) r -> In k UNIFIED_FIELDNAMES) rows.
Proof.
  eexists. split; [reflexivity|].
  apply (extracted_rows_have_only_csv_columns (PDict sample_response) "shoes").
  right. right. reflexivity.
Defined.

(** X3: every extracted row has a keyword, and it is either a truthy value
    taken from the response (the result's keyword, else the task's) or the
    fallback the caller passed: a row never carries an empty or missing
    keyword unless the fallback itself is empty. *)
Theorem extracted_rows_have_a_keyword (response_dict : Any)
    (fallback : string) (rows : list Row) :
  _extract_organic_rows response_dict fallback = Ok rows \/
  _extract_ai_overview_rows response_dict fallback = Ok rows \/
  _extract_ai_mode_rows response_dict fallback = Ok rows ->
  Forall (fun r => exists v, lookup "keyword" r = Some v /\
                             (truthy v = true \/ v = PStr fallback)) rows.
Proof.
  intros [H | [H | H]];
    [ apply (walk_items_Forall _ fallback _
               (organic_item_rows_ok fallback)) in H
    | apply (walk_items_Forall _ fallback _
               (ai_overview_item_rows_ok fallback)) in H
    | apply (walk_items_Forall _ fallback _
               (ai_mode_item_rows_ok fallback)) in H ];
    (eapply Forall_impl; [|exact H]); intros r Hr; apply Hr.
Qed.

Lemma extracted_rows_have_a_keyword_witness :
  exists rows,
    _extract_organic_rows (PDict sample_response) "fallback" = Ok rows /\
    Forall (fun r => exists v, lookup "keyword" r = Some v /\
                               (truthy v = true \/ v = PStr "fallback")) rows.
Proof.
  eexists. split; [reflexivity|].
  apply (extracted_rows_have_a_keyword (PDict sample_response) "fallback").
  left. reflexivity.
Defined.

Lemma extractors_tag_their_rows_witness :
  exists rows,
    _extract_ai_overview_rows (PDict sample_response) "shoes" = Ok rows /\
    Forall (fun r => lookup "result_type" r = Some (PStr "ai_overview")) rows.
Proof.
  eexists. split; [reflexivity|].
  apply (extractors_tag_their_rows (PDict sample_response) "shoes").
  reflexivity.
Defined.

(** ** Extraction: the root of the document *)

(** X4: a document that is a dict without a usable ["tasks"] entry (absent,
    [null], or an empty list) gives no rows and no error in all three
    extractors; a document that is not a dict makes each of them raise
    [AttributeError]. *)
Theorem extractors_at_the_root (fallback : string) :
  (forall doc : Dict, truthy (dget doc "tasks") = false ->
     _extract_organic_rows (PDict doc) fallback = Ok [] /\
     _extract_ai_overview_rows (PDict doc) fallback = Ok [] /\
     _extract_ai_mode_rows (PDict doc) fallback = Ok []) /\
  (forall v : Any, (forall doc, v <> PDict doc) ->
     _extract_organic_rows v fallback = Raise AttributeError /\
     _extract_ai_overview_rows v fallback = Raise AttributeError /\
     _extract_ai_mode_rows v fallback = Raise AttributeError).
Proof.
  split.
  - intros doc Hfalsy.
    unfold _extract_organic_rows, _extract_ai_overview_rows,
      _extract_ai_mode_rows, walk_items.
    rewrite get_dict. cbn [rbind]. unfold py_or. rewrite Hfalsy.
    repeat split.
  - intros v Hv.
    destruct v; try (repeat split; reflexivity).
    now elim (Hv d).
Qed.

Lemma extractors_at_the_root_witness :
  _extract_organic_rows (PDict [("status_code"%string, PInt 40000)]) "shoes"
    = Ok [] /\
  _extract_ai_mode_rows (PList [PInt 1]) "shoes" = Raise AttributeError.
Proof.
  split.
  - apply (proj1 (extractors_at_the_root "shoes")
             [("status_code"%string, PInt 40000)]).
    reflexivity.
  - apply (proj2 (extractors_at_the_root "shoes") (PList [PInt 1])).
    discriminate.
Defined.

(** ** Result sink *)

Lemma csv_record_cells (row : Row) :
  csv_record row = map (csv_cell row) UNIFIED_FIELDNAMES.
Proof. reflexivity. Qed.

(** X5: the record written for a row has exactly one cell per header
    column, in the order of the header, and no cell is [None]: a missing
    field and a [None] field are both written as the empty string, every
    other value as it is. *)
Theorem csv_record_is_rectangular (row : Row) :
  List.length (csv_record row) = List.length UNIFIED_FIELDNAMES /\
  List.length (csv_record row) = 21%nat /\
  Forall (fun cell => cell <> PNone) (csv_record row) /\
  (forall i k, nth_error UNIFIED_FIELDNAMES i = Some k ->
     nth_error (csv_record row) i =
       Some (match lookup k row with
             | None | Some PNone => PStr ""
             | Some v => v
             end)).
Proof.
  rewrite csv_record_cells, length_map. repeat split.
  - apply Forall_map, Forall_forall. intros k _. unfold csv_cell.
    destruct (lookup k row) as [[]|]; discriminate.
  - intros i k Hk. rewrite nth_error_map, Hk. cbn. unfold csv_cell.
    now destruct (lookup k row) as [[]|].
Qed.

(** X6: from an organic item to its CSV record.  The eleven item fields
    reach their columns unchanged, a field that is missing or [None] gives
    an empty cell, the type column reads "organic", and the reference and
    AI-mode columns are empty. *)
Theorem organic_item_to_csv (kw : Any) (item : Dict) (row : Row) :
  organic_item_rows kw (PDict item) = Ok [row] ->
  csv_cell row "result_type" = PStr "organic" /\
  (forall k, In k organic_item_fields ->
     csv_cell row k = match dget item k with
                      | PNone => PStr ""
                      | v => v
                      end) /\
  (forall k, In k UNIFIED_FIELDNAMES -> ~ In k organic_item_fields ->
     k <> "result_type"%string -> k <> "keyword"%string ->
     csv_cell row k = PStr "").
Proof.
  intros H. unfold organic_item_rows in H. rewrite get_dict in H.
  cbn [rbind] in H. destruct (ne_str (dget item "type") "organic");
    [discriminate|].
  cbn [get rbind] in H. fold (dget item) in H. injection H as <-.
  split; [reflexivity|]. split.
  - intros k Hk. unfold organic_item_fields in Hk. cbn [In] in Hk.
    repeat (destruct Hk as [<- | Hk];
            [unfold csv_cell; cbn [lookup String.eqb Ascii.eqb Bool.eqb];
             unfold dget; now destruct (lookup _ item) as [[]|] |]).
    contradiction.
  - intros k Hk Hno Hrt Hkw. unfold UNIFIED_FIELDNAMES in Hk. cbn [In] in Hk.
    repeat (destruct Hk as [<- | Hk];
            [first [ now elim Hrt | now elim Hkw
                   | elim Hno; unfold organic_item_fields; cbn; tauto
                   | reflexivity ] |]).
    contradiction.
Qed.

Lemma organic_item_to_csv_witness :
  csv_cell
    [ ("result_type"%string, PStr "organic"); ("keyword"%string, PStr "shoes");
      ("page"%string, PNone); ("rank_group"%string, PInt 1);
      ("rank_absolute"%string, PNone); ("position"%string, PNone);
      ("domain"%string, PNone); ("url"%string, PStr "https://example.net/");
      ("title"%string, PNone); ("description"%string, PNone);
      ("extended_snippet"%string, PNone); ("breadcrumb"%string, PNone);
      ("website_name"%string, PNone) ] "result_type" = PStr "organic".
Proof.
  apply (organic_item_to_csv (PStr "shoes")
           [ ("type"%string, PStr "organic"); ("rank_group"%string, PInt 1);
             ("url"%string, PStr "https://example.net/") ]).
  reflexivity.
Defined.

(** X7: for an AI-mode item whose references are [n] dicts,
    [_extract_ai_mode_rows] emits a summary row followed by one row per
    reference; the summary row counts the references and names the domain
    of the first one, or the empty string when there is none. *)
Theorem ai_mode_item_summary_and_citations (kw : Any) (item : Dict)
    (refs : list Dict) :
  has_type "ai_overview" item = true ->
  dget item "references" = PList (map PDict refs) ->
  exists summary citations,
    ai_mode_item_rows kw (PDict item) = Ok (summary :: citations) /\
    List.length citations = List.length refs /\
    lookup "ai_mode_citations_count" summary
      = Some (PInt (Z.of_nat (List.length refs))) /\
    lookup "ai_mode_primary_domain" summary
      = Some (match refs with
              | [] => PStr ""
              | first_ref :: _ => py_or (dget first_ref "domain") (PStr "")
              end) /\
    lookup "ai_mode_summary" summary
      = Some (py_or (dget item "markdown") (PStr "")) /\
    Forall (fun r => lookup "ai_mode_summary" r = Some (PStr "")) citations.
Proof.
  intros Hty Href. unfold has_type in Hty. apply negb_true_iff in Hty.
  unfold ai_mode_item_rows. rewrite get_dict. cbn [rbind]. rewrite Hty.
  rewrite !get_dict. cbn [rbind]. rewrite Href.
  assert (Hor : py_or (PList (map PDict refs)) (PList [])
                = PList (map PDict refs)) by now destruct refs.
  rewrite Hor. cbn [len rbind iter]. rewrite length_map.
  assert (Hcit : exists citations,
    for_each (map PDict refs) (fun ref =>
       (domain <- get ref "domain" ;;
        source <- get ref "source" ;;
        title <- get ref "title" ;;
        url <- get ref "url" ;;
        text <- get ref "text" ;;
        Ok [[ ("result_type"%string, PStr "ai_mode");
              ("keyword"%string, kw);
              ("domain"%string, domain);
              ("references_source"%string, py_or source title);
              ("references_url"%string, url);
              ("references_text"%string, text);
              ("references_markdown"%string,
                 py_or (dget item "markdown") (PStr ""));
              ("ai_mode_summary"%string, PStr "");
              ("ai_mode_citations_count"%string, PStr "");
              ("ai_mode_primary_domain"%string, PStr "");
              ("ai_mode_primary_url"%string, PStr "") ]])%result)
      = Ok citations /\
    List.length citations = List.length refs /\
    Forall (fun r => lookup "ai_mode_summary" r = Some (PStr "")) citations).
  { clear. induction refs as [|r refs [cs [IH [Hl Hf]]]].
    - exists []. repeat split. constructor.
    - cbn [map for_each]. rewrite IH. cbn [get rbind].
      eexists. split; [reflexivity|]. split.
      + cbn. now rewrite Hl.
      + constructor; [reflexivity | exact Hf]. }
  destruct Hcit as [citations [Hc [Hl Hf]]].
  destruct refs as [|first_ref refs'].
  - cbn [map truthy rbind fst snd index0] in *. rewrite Hc. cbn [rbind].
    do 2 eexists. repeat split; [exact Hl | exact Hf].
  - cbn [map truthy rbind fst snd index0 get] in *. rewrite Hc. cbn [rbind].
    do 2 eexists. repeat split; [exact Hl | exact Hf].
Qed.

Lemma ai_mode_item_summary_and_citations_witness :
  exists summary citations,
    ai_mode_item_rows (PStr "shoes")
      (PDict [ ("type"%string, PStr "ai_overview");
               ("references"%string,
                  PList (map PDict [sample_reference_1; sample_reference_2])) ])
      = Ok (summary :: citations) /\
    List.length citations = 2%nat /\
    lookup "ai_mode_citations_count" summary = Some (PInt 2) /\
    lookup "ai_mode_primary_domain" summary = Some (PStr "example.com").
Proof.
  destruct (ai_mode_item_summary_and_citations (PStr "shoes")
              [ ("type"%string, PStr "ai_overview");
                ("references"%string,
                   PList (map PDict [sample_reference_1; sample_reference_2])) ]
              [sample_reference_1; sample_reference_2] eq_refl eq_refl)
    as [summary [citations [H1 [H2 [H3 [H4 _]]]]]].
  exists summary, citations. repeat split; assumption.
Defined.

(** ** Fetch with retry: every run of the loop *)

(** The loop over the attempts [a .. a+n-1] retries some [m] of them and
    then runs out, returns the body of a 200, or gives up with a line on
    the error channel. *)
Lemma retry_loop_shape (url : endpoint) (session : ClientSession)
    (keyword : string) (n : nat) :
  forall a : nat,
  exists m : nat,
    (m <= n)%nat /\
    (forall i, (a <= i < a + m)%nat -> retried (session url i)) /\
    ((m = n /\
      retry_loop url session keyword (seq a n)
        = (retries url keyword a m, PNone))
     \/ ((m < n)%nat /\ exists data text,
           session url (a + m)%nat = Response 200 data text /\
           retry_loop url session keyword (seq a n)
             = (retries url keyword a m ++ [Post url keyword (a + m)], data))
     \/ ((m < n)%nat /\ exists msg,
           retry_loop url session keyword (seq a n)
             = (retries url keyword a m
                  ++ [Post url keyword (a + m); Stderr msg], PNone))).
Proof.
  induction n as [|n IH]; intro a.
  - exists 0%nat. split; [lia|]. split; [intros i Hi; lia|].
    left. split; reflexivity.
  - assert (Hgo : forall
        (Ha : retried (session url a))
        (E : retry_loop url session keyword (seq a (S n)) =
             (Post url keyword a :: Sleep (backoff_delay a)
                :: fst (retry_loop url session keyword (seq (S a) n)),
              snd (retry_loop url session keyword (seq (S a) n)))),
        exists m : nat,
          (m <= S n)%nat /\
          (forall i, (a <= i < a + m)%nat -> retried (session url i)) /\
          ((m = S n /\
            retry_loop url session keyword (seq a (S n))
              = (retries url keyword a m, PNone))
           \/ ((m < S n)%nat /\ exists data text,
                 session url (a + m)%nat = Response 200 data text /\
                 retry_loop url session keyword (seq a (S n))
                   = (retries url keyword a m ++ [Post url keyword (a + m)],
                      data))
           \/ ((m < S n)%nat /\ exists msg,
                 retry_loop url session keyword (seq a (S n))
                   = (retries url keyword a m
                        ++ [Post url keyword (a + m); Stderr msg], PNone)))).
    { intros Ha E. destruct (IH (S a)) as [m [Hm [Hret Hcases]]].
      exists (S m). split; [lia|]. split.
      - intros i Hi. destruct (Nat.eq_dec i a) as [->|Hne]; [exact Ha|].
        apply Hret. lia.
      - rewrite E. replace (a + S m)%nat with (S a + m)%nat by lia.
        unfold retries in *. cbn [seq flat_map app].
        destruct Hcases as [[-> H] | [[Hlt [data [text [H200 H]]]]
                                     | [Hlt [msg H]]]];
          rewrite H; cbn [fst snd].
        + left. split; reflexivity.
        + right. left. split; [lia|]. exists data, text. split; [exact H200|].
          reflexivity.
        + right. right. split; [lia|]. exists msg. reflexivity. }
    assert (Hstop : forall msg,
        retry_loop url session keyword (seq a (S n))
          = ([Post url keyword a; Stderr msg], PNone) ->
        exists m : nat,
          (m <= S n)%nat /\
          (forall i, (a <= i < a + m)%nat -> retried (session url i)) /\
          ((m = S n /\
            retry_loop url session keyword (seq a (S n))
              = (retries url keyword a m, PNone))
           \/ ((m < S n)%nat /\ exists data text,
                 session url (a + m)%nat = Response 200 data text /\
                 retry_loop url session keyword (seq a (S n))
                   = (retries url keyword a m ++ [Post url keyword (a + m)],
                      data))
           \/ ((m < S n)%nat /\ exists msg,
                 retry_loop url session keyword (seq a (S n))
                   = (retries url keyword a m
                        ++ [Post url keyword (a + m); Stderr msg], PNone)))).
    { intros msg E. exists 0%nat. split; [lia|]. split; [intros i Hi; lia|].
      right. right. split; [lia|]. exists msg.
      rewrite Nat.add_0_r. exact E. }
    cbn [seq retry_loop] in *.
    destruct (session url a) as [status data text| |e|status err] eqn:Es.
    + destruct (status =? 200) eqn:E200.
      * exists 0%nat. split; [lia|]. split; [intros i Hi; lia|].
        right. left. split; [lia|]. exists data, text.
        rewrite Nat.add_0_r. apply Z.eqb_eq in E200. subst status.
        split; [exact Es | reflexivity].
      * destruct (status =? 429) eqn:E429.
        -- apply Hgo; [now apply Z.eqb_eq in E429|].
           now destruct (retry_loop url session keyword (seq (S a) n)).
        -- eapply Hstop. reflexivity.
    + destruct (a <? MAX_RETRIES - 1)%nat.
      * apply Hgo; [exact I|].
        now destruct (retry_loop url session keyword (seq (S a) n)).
      * eapply Hstop. reflexivity.
    + destruct (a <? MAX_RETRIES - 1)%nat.
      * apply Hgo; [exact I|].
        now destruct (retry_loop url session keyword (seq (S a) n)).
      * eapply Hstop. reflexivity.
    + destruct (status =? 429); [|destruct (a <? MAX_RETRIES - 1)%nat].
      * apply Hgo; [exact I|].
        now destruct (retry_loop url session keyword (seq (S a) n)).
      * apply Hgo; [exact I|].
        now destruct (retry_loop url session keyword (seq (S a) n)).
      * eapply Hstop. reflexivity.
Qed.

Lemma stderr_lines_app (l1 l2 : list event) :
  stderr_lines (l1 ++ l2) = stderr_lines l1 ++ stderr_lines l2.
Proof. apply flat_map_app. Qed.

Lemma stderr_lines_retries (url : endpoint) (keyword : string) (a k : nat) :
  stderr_lines (retries url keyword a k) = [].
Proof.
  unfold retries. revert a. induction k as [|k IH]; intro a; [reflexivity|].
  cbn [seq flat_map]. rewrite stderr_lines_app, IH. reflexivity.
Qed.

(** The three ways a fetch can go, on its events and its result. *)
Lemma fetch_shape (url : endpoint) (session : ClientSession)
    (keyword : string) :
  exists m : nat,
    (m <= MAX_RETRIES)%nat /\
    (forall i, (i < m)%nat -> retried (session url i)) /\
    ((m = MAX_RETRIES /\
      fetch url session keyword
        = (Acquire :: retries url keyword 0 m ++ [Release], (keyword, PNone)))
     \/ ((m < MAX_RETRIES)%nat /\ exists data text,
           session url m = Response 200 data text /\
           fetch url session keyword
             = (Acquire :: (retries url keyword 0 m ++ [Post url keyword m])
                  ++ [Release], (keyword, data)))
     \/ ((m < MAX_RETRIES)%nat /\ exists msg,
           fetch url session keyword
             = (Acquire :: (retries url keyword 0 m
                  ++ [Post url keyword m; Stderr msg]) ++ [Release],
                (keyword, PNone)))).
Proof.
  destruct (retry_loop_shape url session keyword MAX_RETRIES 0%nat)
    as [m [Hm [Hret Hcases]]].
  exists m. split; [exact Hm|]. split; [intros i Hi; apply Hret; lia|].
  unfold fetch. cbn [Nat.add] in Hcases.
  destruct Hcases as [[-> H] | [[Hlt [data [text [H200 H]]]] | [Hlt [msg H]]]];
    rewrite H.
  - left. split; reflexivity.
  - right. left. split; [exact Hlt|]. exists data, text.
    split; [exact H200 | reflexivity].
  - right. right. split; [exact Hlt|]. exists msg. reflexivity.
Qed.

(** X8: whatever the provider answers, a fetch posts attempts numbered
    0, 1, ..., n-1 with 1 <= n <= [MAX_RETRIES], and the delays it sleeps
    are the first n or the first n-1 of the schedule 1, 2, 4 seconds: never
    more than three requests and never more than seven seconds of backoff
    for one logical call. *)
Theorem fetch_schedule (url : endpoint) (session : ClientSession)
    (keyword : string) :
  exists n m : nat,
    (1 <= n <= MAX_RETRIES)%nat /\
    (m = n \/ S m = n) /\
    posts_to url (fst (fetch url session keyword)) = seq 0 n /\
    sleeps (fst (fetch url session keyword)) = firstn m [1; 2; 4]%float.
Proof.
  assert (Hsl : forall m, (m <= MAX_RETRIES)%nat ->
            map backoff_delay (seq 0 m) = firstn m [1; 2; 4]%float).
  { intros m Hm. unfold MAX_RETRIES in Hm.
    destruct m as [|[|[|[|m]]]]; try reflexivity. lia. }
  destruct (fetch_shape url session keyword) as [m [Hm [_ Hcases]]].
  destruct Hcases as [[-> H] | [[Hlt [data [text [_ H]]]] | [Hlt [msg H]]]];
    rewrite H; cbn [fst].
  - exists MAX_RETRIES, MAX_RETRIES. split; [unfold MAX_RETRIES; lia|].
    split; [now left|].
    change (Acquire :: ?l ++ ?r) with ([Acquire] ++ l ++ r).
    rewrite !posts_to_app, !sleeps_app, posts_to_retries, sleeps_retries.
    cbn [posts_to sleeps flat_map app]. rewrite !app_nil_r.
    split; [reflexivity | now apply Hsl].
  - exists (S m), m. split; [lia|]. split; [now right|].
    change (Acquire :: ?l ++ ?r) with ([Acquire] ++ l ++ r).
    rewrite !posts_to_app, !sleeps_app, posts_to_retries, sleeps_retries,
      posts_to_self.
    cbn [posts_to sleeps flat_map app]. rewrite !app_nil_r, seq_S.
    split; [reflexivity | now apply Hsl].
  - exists (S m), m. split; [lia|]. split; [now right|].
    change (Acquire :: ?l ++ ?r) with ([Acquire] ++ l ++ r).
    change [Post url keyword m; Stderr msg]
      with ([Post url keyword m] ++ [Stderr msg]).
    rewrite !posts_to_app, !sleeps_app, posts_to_retries, sleeps_retries,
      posts_to_self.
    cbn [posts_to sleeps flat_map app]. rewrite !app_nil_r, seq_S.
    split; [reflexivity | now apply Hsl].
Qed.

(** X9: a fetch returns a value other than [None] exactly when some
    attempt is answered by HTTP 200 with that value as its decoded body and
    every earlier attempt was answered by 429, a timeout or a transport
    error (raised by the POST or while a body was read). *)
Theorem fetch_returns_data_iff (url : endpoint) (session : ClientSession)
    (keyword : string) (data : Any) :
  data <> PNone ->
  (snd (fetch url session keyword) = (keyword, data) <->
   exists k text,
     (k < MAX_RETRIES)%nat /\
     (forall i, (i < k)%nat -> retried (session url i)) /\
     session url k = Response 200 data text).
Proof.
  intros Hdata. split.
  - intros Hres.
    destruct (fetch_shape url session keyword) as [m [Hm [Hret Hcases]]].
    destruct Hcases as [[-> H] | [[Hlt [d [text [H200 H]]]] | [Hlt [msg H]]]];
      rewrite H in Hres; cbn [snd] in Hres.
    + injection Hres as <-. now elim Hdata.
    + injection Hres as ->. exists m, text. auto.
    + injection Hres as <-. now elim Hdata.
  - intros [k [text [Hk [Hret H200]]]].
    rewrite (fetch_reaches url session keyword k Hk Hret).
    destruct (MAX_RETRIES - k)%nat as [|j] eqn:Hj; [lia|].
    cbn [seq retry_loop]. rewrite H200. reflexivity.
Qed.

Lemma fetch_returns_data_iff_witness :
  snd (fetch organic_live_advanced rate_limited_twice "shoes")
    = ("shoes"%string, PDict sample_response).
Proof.
  apply (fetch_returns_data_iff organic_live_advanced rate_limited_twice
           "shoes" (PDict sample_response)).
  - discriminate.
  - exists 2%nat, ""%string. split; [unfold MAX_RETRIES; lia|]. split.
    + intros i Hi. unfold rate_limited_twice.
      replace (i <? 2)%nat with true by (symmetry; apply Nat.ltb_lt; exact Hi).
      reflexivity.
    + reflexivity.
Defined.

(** X10: a fetch writes at most one line on the error channel, and only
    when it returns [None]; but not every failure is reported: when all the
    attempts are answered by HTTP 429 the fetch returns [None] without any
    line. *)
Theorem fetch_error_lines (url : endpoint) (session : ClientSession)
    (keyword : string) :
  (List.length (stderr_lines (fst (fetch url session keyword))) <= 1)%nat /\
  (stderr_lines (fst (fetch url session keyword)) <> [] ->
   snd (fetch url session keyword) = (keyword, PNone)) /\
  ((forall i, (i < MAX_RETRIES)%nat ->
      exists d t, session url i = Response 429 d t) ->
   snd (fetch url session keyword) = (keyword, PNone) /\
   stderr_lines (fst (fetch url session keyword)) = []).
Proof.
  destruct (fetch_shape url session keyword) as [m [Hm [Hret Hcases]]].
  assert (Hev : forall l r,
            stderr_lines (Acquire :: (retries url keyword 0 m ++ l) ++ r)
            = stderr_lines l ++ stderr_lines r).
  { intros l r.
    change (Acquire :: ?x ++ r) with ([Acquire] ++ x ++ r).
    now rewrite !stderr_lines_app, stderr_lines_retries. }
  destruct Hcases as [[-> H] | [[Hlt [d [text [H200 H]]]] | [Hlt [msg H]]]].
  - rewrite H. cbn [fst snd].
    change (Acquire :: ?x ++ ?r) with ([Acquire] ++ x ++ r).
    rewrite !stderr_lines_app, stderr_lines_retries. cbn.
    split; [lia|]. split; [congruence|]. intros _. split; reflexivity.
  - rewrite H. cbn [fst snd]. rewrite Hev. cbn.
    split; [lia|]. split; [congruence|].
    intros H429. destruct (H429 m Hlt) as [d' [t' E]]. congruence.
  - rewrite H. cbn [fst snd]. rewrite Hev. cbn.
    split; [lia|]. split; [reflexivity|].
    intros H429. exfalso.
    unfold fetch in H.
    assert (Hl : forall n a, (a + n <= MAX_RETRIES)%nat ->
              stderr_lines (fst (retry_loop url session keyword (seq a n)))
              = []).
    { clear - H429. induction n as [|n IH]; intros a Ha; [reflexivity|].
      cbn [seq retry_loop].
      destruct (H429 a ltac:(lia)) as [d' [t' ->]]. cbn [Z.eqb Pos.eqb].
      specialize (IH (S a) ltac:(lia)).
      destruct (retry_loop url session keyword (seq (S a) n)).
      cbn [fst] in *. exact IH. }
    specialize (Hl MAX_RETRIES 0%nat ltac:(lia)).
    destruct (retry_loop url session keyword (seq 0 MAX_RETRIES)) as [evs r].
    injection H as Hevs _. cbn [fst] in Hl.
    apply (f_equal stderr_lines) in Hevs.
    rewrite !stderr_lines_app, Hl, stderr_lines_retries in Hevs.
    cbn in Hevs. discriminate.
Qed.

Lemma fetch_error_lines_witness :
  snd (fetch organic_live_advanced always_429 "shoes")
    = ("shoes"%string, PNone) /\
  stderr_lines (fst (fetch organic_live_advanced always_429 "shoes")) = [].
Proof.
  apply (fetch_error_lines organic_live_advanced always_429 "shoes").
  intros i _. exists PNone, "Too Many Requests"%string. reflexivity.
Defined.

(** ** Per-keyword orchestrator: the statistics *)

Lemma length_Z_app {A} (l1 l2 : list A) :
  length_Z (l1 ++ l2) = length_Z l1 + length_Z l2.
Proof. unfold length_Z. rewrite length_app. lia. Qed.

Lemma stats_plus_zero (s : ProcessingStats) : stats_plus s (new_stats 0) = s.
Proof. destruct s. unfold stats_plus, new_stats. cbn. f_equal; lia. Qed.

(** The orchestrator reads nothing from the statistics: it adds to them. *)
Lemma process_single_keyword_additive (session : ClientSession)
    (keyword : string) (stats : ProcessingStats) :
  process_single_keyword session keyword stats =
  let '(evs, d, r) := process_single_keyword session keyword (new_stats 0) in
  (evs, stats_plus stats d, r).
Proof.
  rewrite !process_single_keyword_cases. cbv zeta.
  destruct stats as [t c f ao org am].
  repeat match goal with
    | |- context [if ?b then _ else _] => destruct b
    | |- context [match ?r with Ok _ => _ | Raise _ => _ end] => destruct r
    end;
    unfold stats_plus, add_completed, add_failed, add_ai_mode_rows,
      add_organic_rows, add_ai_overview_rows, new_stats; cbn;
    f_equal; f_equal; f_equal; lia.
Qed.

(** X11: when the orchestrator returns, the three row counters have grown
    together by exactly the number of rows it returns, and [total] is
    untouched. *)
Theorem row_counters_count_the_rows (session : ClientSession)
    (keyword : string) (stats stats' : ProcessingStats) (evs : list event)
    (rows : list Row) :
  process_single_keyword session keyword stats = (evs, stats', Ok rows) ->
  row_counters stats' = row_counters stats + length_Z rows /\
  total stats' = total stats.
Proof.
  rewrite process_single_keyword_cases. cbv zeta.
  repeat match goal with
    | |- context [if ?b then _ else _] => destruct b
    | |- context [match ?r with Ok _ => _ | Raise _ => _ end] => destruct r
    end; intros [= <- <- <-]; unfold row_counters; cbn;
    rewrite ?length_Z_app; split; try reflexivity; unfold length_Z; cbn; lia.
Qed.

Lemma row_counters_count_the_rows_witness :
  row_counters
    (snd (fst (process_single_keyword ai_mode_down "shoes" (new_stats 1))))
  = row_counters (new_stats 1) + 3.
Proof.
  apply (row_counters_count_the_rows ai_mode_down "shoes" (new_stats 1)
           _ _ _ eq_refl).
Defined.

(** X12: the events and the result of the orchestrator do not depend on
    the statistics it is given, and the amounts it adds to the counters do
    not either: two coroutines that share the record cannot influence each
    other through it. *)
Theorem orchestrator_ignores_the_counters (session : ClientSession)
    (keyword : string) (s1 s2 : ProcessingStats) :
  fst (fst (process_single_keyword session keyword s1))
    = fst (fst (process_single_keyword session keyword s2)) /\
  snd (process_single_keyword session keyword s1)
    = snd (process_single_keyword session keyword s2) /\
  exists d,
    snd (fst (process_single_keyword session keyword s1)) = stats_plus s1 d /\
    snd (fst (process_single_keyword session keyword s2)) = stats_plus s2 d.
Proof.
  rewrite (process_single_keyword_additive session keyword s1).
  rewrite (process_single_keyword_additive session keyword s2).
  destruct (process_single_keyword session keyword (new_stats 0))
    as [[evs d] r].
  cbn [fst snd]. repeat split. exists d. split; reflexivity.
Qed.

(** ** Batch scheduler: counters and completion order *)

Lemma keyword_task_additive (net : nat -> ClientSession)
    (keywords : list string) (i : nat) (stats : ProcessingStats) :
  keyword_task net keywords i stats =
  let '(evs, d, r) := keyword_task net keywords i (new_stats 0) in
  (evs, stats_plus stats d, r).
Proof.
  unfold keyword_task. destruct (nth_error keywords i) as [kw|].
  - apply process_single_keyword_additive.
  - unfold ret. now rewrite stats_plus_zero.
Qed.

(** One more coroutine awaited. *)
Lemma as_completed_cons (net : nat -> ClientSession) (keywords : list string)
    (i : nat) (order : list nat) (stats : ProcessingStats) :
  as_completed net keywords (i :: order) stats =
  match keyword_task net keywords i stats with
  | (evs, stats', Ok keyword_rows) =>
      match as_completed net keywords order stats' with
      | (evs', stats'', Ok all_rows) =>
          (evs ++ evs', stats'', Ok (keyword_rows ++ all_rows))
      | (evs', stats'', Raise e) => (evs ++ evs', stats'', Raise e)
      end
  | (evs, stats', Raise e) => (evs, stats', Raise e)
  end.
Proof.
  cbn [as_completed]. unfold bind at 1. fold (keyword_task net keywords i).
  destruct (keyword_task net keywords i stats) as [[evs stats'] [rows|e]];
    [|reflexivity].
  unfold bind, ret.
  destruct (as_completed net keywords order stats') as [[evs' stats''] [rs|e]];
    cbn; now rewrite ?app_nil_r.
Qed.

Lemma as_completed_cons_Ok (net : nat -> ClientSession)
    (keywords : list string) (i : nat) (order : list nat)
    (stats stats'' : ProcessingStats) (evs : list event) (rows : list Row) :
  as_completed net keywords (i :: order) stats = (evs, stats'', Ok rows) <->
  exists evs1 stats' rows1 evs2 rows2,
    keyword_task net keywords i stats = (evs1, stats', Ok rows1) /\
    as_completed net keywords order stats' = (evs2, stats'', Ok rows2) /\
    evs = evs1 ++ evs2 /\ rows = rows1 ++ rows2.
Proof.
  rewrite as_completed_cons. split.
  - destruct (keyword_task net keywords i stats) as [[evs1 stats'] [rows1|e]];
      [|discriminate].
    destruct (as_completed net keywords order stats')
      as [[evs2 s2] [rows2|e]] eqn:E2; [|discriminate].
    intros [= <- <- <-]. exists evs1, stats', rows1, evs2, rows2.
    repeat split. exact E2.
  - intros [evs1 [stats' [rows1 [evs2 [rows2 [H1 [H2 [-> ->]]]]]]]].
    now rewrite H1, H2.
Qed.

Lemma keyword_task_counts (net : nat -> ClientSession)
    (keywords : list string) (i : nat) (stats stats' : ProcessingStats)
    (evs : list event) (rows : list Row) :
  (i < List.length keywords)%nat ->
  keyword_task net keywords i stats = (evs, stats', Ok rows) ->
  completed stats' + failed stats' = completed stats + failed stats + 1 /\
  total stats' = total stats /\
  row_counters stats' = row_counters stats + length_Z rows.
Proof.
  intros Hi H. unfold keyword_task in H.
  destruct (nth_error keywords i) as [kw|] eqn:E.
  - revert H. rewrite process_single_keyword_cases. cbv zeta.
    repeat match goal with
      | |- context [if ?b then _ else _] => destruct b
      | |- context [match ?r with Ok _ => _ | Raise _ => _ end] => destruct r
      end; intros [= <- <- <-]; unfold row_counters; cbn;
      rewrite ?length_Z_app; repeat split; unfold length_Z; cbn; lia.
  - apply nth_error_None in E. lia.
Qed.

(** X13: when the batch returns, having awaited each keyword's coroutine
    once, [completed + failed] equals [total], which is the number of
    keywords, and the three row counters add up to the number of rows
    returned. *)
Theorem batch_counters_add_up (keywords : list string)
    (net : nat -> ClientSession) (order : list nat) (evs : list event)
    (stats : ProcessingStats) (all_rows : list Row) :
  Forall (fun i => (i < List.length keywords)%nat) order ->
  List.length order = List.length keywords ->
  process_keywords_async keywords net order = (evs, stats, Ok all_rows) ->
  completed stats + failed stats = total stats /\
  total stats = length_Z keywords /\
  row_counters stats = length_Z all_rows.
Proof.
  intros Hvalid Hlen Hrun. unfold process_keywords_async in Hrun.
  assert (G : forall order s0 evs s rows,
            Forall (fun i => (i < List.length keywords)%nat) order ->
            as_completed net keywords order s0 = (evs, s, Ok rows) ->
            completed s + failed s
              = completed s0 + failed s0 + length_Z order /\
            total s = total s0 /\
            row_counters s = row_counters s0 + length_Z rows).
  { clear. induction order as [|i order IH]; intros s0 evs s rows Hv H.
    - injection H as <- <- <-. unfold length_Z. cbn. lia.
    - apply as_completed_cons_Ok in H.
      destruct H as [evs1 [s1 [rows1 [evs2 [rows2 [H1 [H2 [-> ->]]]]]]]].
      inversion Hv as [|? ? Hi Hv']; subst.
      destruct (keyword_task_counts _ _ _ _ _ _ _ Hi H1) as [Ha [Hb Hc]].
      destruct (IH _ _ _ _ Hv' H2) as [Ha' [Hb' Hc']].
      rewrite length_Z_app. unfold length_Z in *. cbn [List.length].
      lia. }
  destruct (G _ _ _ _ _ Hvalid Hrun) as [Ha [Hb Hc]].
  unfold new_stats, row_counters, length_Z in *. cbn in *. lia.
Qed.

Lemma batch_counters_add_up_witness :
  let stats :=
    snd (fst (process_keywords_async ["shoes"; "boots"]%string
                (fun i => match i with O => ai_mode_down | _ => always_429 end)
                [1; 0]%nat)) in
  completed stats + failed stats = total stats /\
  total stats = 2 /\
  row_counters stats = 3.
Proof.
  exact (batch_counters_add_up ["shoes"; "boots"]%string
           (fun i => match i with O => ai_mode_down | _ => always_429 end)
           [1; 0]%nat _ _ _
           (Forall_cons 1%nat (le_n 2)
              (Forall_cons 0%nat (le_S 1 1 (le_n 1)) (Forall_nil _)))
           eq_refl eq_refl).
Defined.

Lemma stats_plus_swap (s d1 d2 : ProcessingStats) :
  stats_plus (stats_plus s d1) d2 = stats_plus (stats_plus s d2) d1.
Proof. unfold stats_plus. cbn. f_equal; lia. Qed.

Lemma as_completed_perm (net : nat -> ClientSession) (keywords : list string)
    (order1 order2 : list nat) :
  Permutation order1 order2 ->
  forall stats evs1 stats' rows1,
    as_completed net keywords order1 stats = (evs1, stats', Ok rows1) ->
    exists evs2 rows2,
      as_completed net keywords order2 stats = (evs2, stats', Ok rows2) /\
      Permutation rows1 rows2 /\ Permutation evs1 evs2.
Proof.
  induction 1 as [|x l l' Hperm IH|x y l|l l' l'' _ IH1 _ IH2];
    intros stats evs1 stats' rows1 H.
  - exists evs1, rows1. repeat split; auto.
  - apply as_completed_cons_Ok in H.
    destruct H as [ex [sx [rx [el [rl [Hx [Hl [-> ->]]]]]]]].
    destruct (IH _ _ _ _ Hl) as [el' [rl' [Hl' [Hr He]]]].
    exists (ex ++ el'), (rx ++ rl'). split; [|split].
    + apply as_completed_cons_Ok. now exists ex, sx, rx, el', rl'.
    + now apply Permutation_app_head.
    + now apply Permutation_app_head.
  - apply as_completed_cons_Ok in H.
    destruct H as [ey [sy [ry [e' [r' [Hy [H [-> ->]]]]]]]].
    apply as_completed_cons_Ok in H.
    destruct H as [ex [sxy [rx [el [rl [Hx [Hl [-> ->]]]]]]]].
    rewrite keyword_task_additive in Hy, Hx.
    destruct (keyword_task net keywords y (new_stats 0)) as [[ey0 dy] ry0] eqn:Ey.
    destruct (keyword_task net keywords x (new_stats 0)) as [[ex0 dx] rx0] eqn:Ex.
    injection Hy as <- <- ->. injection Hx as <- <- ->.
    exists (ex0 ++ ey0 ++ el), (rx ++ ry ++ rl). split; [|split].
    + apply as_completed_cons_Ok.
      exists ex0, (stats_plus stats dx), rx, (ey0 ++ el), (ry ++ rl).
      split; [rewrite keyword_task_additive, Ex; reflexivity|].
      split; [|split; reflexivity].
      apply as_completed_cons_Ok.
      exists ey0, (stats_plus (stats_plus stats dx) dy), ry, el, rl.
      split; [rewrite keyword_task_additive, Ey; reflexivity|].
      split; [|split; reflexivity].
      rewrite stats_plus_swap. exact Hl.
    + rewrite !app_assoc. apply Permutation_app_tail, Permutation_app_comm.
    + rewrite !app_assoc. apply Permutation_app_tail, Permutation_app_comm.
  - destruct (IH1 _ _ _ _ H) as [e2 [r2 [H2 [Hr2 He2]]]].
    destruct (IH2 _ _ _ _ H2) as [e3 [r3 [H3 [Hr3 He3]]]].
    exists e3, r3. split; [exact H3|]. split; eapply Permutation_trans; eauto.
Qed.

(** X14: the completion order only reorders the output.  If the batch
    returns for one completion order, it returns for every other order of
    the same coroutines, with the same final statistics, the same rows up
    to their order, and the same events up to their order. *)
Theorem batch_result_up_to_completion_order (keywords : list string)
    (net : nat -> ClientSession) (order1 order2 : list nat)
    (evs1 : list event) (stats : ProcessingStats) (rows1 : list Row) :
  Permutation order1 order2 ->
  process_keywords_async keywords net order1 = (evs1, stats, Ok rows1) ->
  exists evs2 rows2,
    process_keywords_async keywords net order2 = (evs2, stats, Ok rows2) /\
    Permutation rows1 rows2 /\
    Permutation evs1 evs2.
Proof.
  intros Hperm H. unfold process_keywords_async in *.
  exact (as_completed_perm net keywords order1 order2 Hperm _ _ _ _ H).
Qed.

Lemma batch_result_up_to_completion_order_witness :
  exists evs2 rows2,
    process_keywords_async ["shoes"; "boots"]%string
      (fun i => match i with O => ai_mode_down | _ => empty_body end)
      [0; 1]%nat
    = (evs2,
       snd (fst (process_keywords_async ["shoes"; "boots"]%string
                   (fun i => match i with O => ai_mode_down | _ => empty_body end)
                   [1; 0]%nat)),
       Ok rows2).
Proof.
  destruct (batch_result_up_to_completion_order ["shoes"; "boots"]%string
              (fun i => match i with O => ai_mode_down | _ => empty_body end)
              [1; 0]%nat [0; 1]%nat _ _ _
              (perm_swap 0%nat 1%nat []) eq_refl)
    as [evs2 [rows2 [H _]]].
  exists evs2, rows2. exact H.
Defined.

(** ** Entry point: a batch that raises *)

Lemma retry_loop_no_write (url : endpoint) (session : ClientSession)
    (keyword : string) (attempts : list nat) :
  filter is_write (fst (retry_loop url session keyword attempts)) = [].
Proof.
  induction attempts as [|a rest IH]; [reflexivity|].
  cbn [retry_loop].
  destruct (session url a) as [status data text| |e|status err];
    repeat match goal with
      | |- context [if ?b then _ else _] => destruct b
      | |- context [let '(_, _) := ?p in _] => destruct p
      end;
    cbn [fst filter is_write] in *; auto.
Qed.

Lemma fetch_no_write (url : endpoint) (session : ClientSession)
    (keyword : string) :
  filter is_write (fst (fetch url session keyword)) = [].
Proof.
  unfold fetch.
  pose proof (retry_loop_no_write url session keyword (seq 0 MAX_RETRIES)) as H.
  destruct (retry_loop url session keyword (seq 0 MAX_RETRIES)) as [evs r].
  cbn [fst filter is_write] in *. now rewrite filter_app, H.
Qed.

Lemma keyword_task_no_write (net : nat -> ClientSession)
    (keywords : list string) (i : nat) (stats : ProcessingStats) :
  filter is_write (fst (fst (keyword_task net keywords i stats))) = [].
Proof.
  unfold keyword_task. destruct (nth_error keywords i) as [kw|]; [|reflexivity].
  rewrite process_single_keyword_cases. cbv zeta.
  pose proof (fetch_no_write organic_live_advanced (net i) kw) as H1.
  pose proof (fetch_no_write ai_mode_live_advanced (net i) kw) as H2.
  fold fetch_serp_data in H1. fold fetch_ai_mode_data in H2.
  repeat match goal with
    | |- context [if ?b then _ else _] => destruct b
    | |- context [match ?r with Ok _ => _ | Raise _ => _ end] => destruct r
    end; cbn [fst]; rewrite ?filter_app, ?H1, ?H2; reflexivity.
Qed.

Lemma as_completed_no_write (net : nat -> ClientSession)
    (keywords : list string) (order : list nat) :
  forall stats,
    filter is_write (fst (fst (as_completed net keywords order stats))) = [].
Proof.
  induction order as [|i order IH]; intro stats; [reflexivity|].
  rewrite as_completed_cons.
  pose proof (keyword_task_no_write net keywords i stats) as Hi.
  destruct (keyword_task net keywords i stats) as [[evs s'] [rows|e]];
    cbn [fst] in *; [|exact Hi].
  specialize (IH s').
  destruct (as_completed net keywords order s') as [[evs' s''] [rs|e]];
    cbn [fst] in *; now rewrite filter_app, Hi, IH.
Qed.

(** X15: one keyword is enough to lose the whole run.  When the batch
    raises (an extractor met a body it cannot walk), [main] raises the same
    exception and has written neither the CSV nor the JSON file: the rows of
    the keywords that had succeeded are not saved. *)
Theorem main_writes_nothing_when_batch_raises
    (keywords_file : option (list string)) (net : nat -> ClientSession)
    (order : list nat) (elapsed : float) (e : exn) :
  snd (_load_keywords keywords_file) <> [] ->
  snd (process_keywords_async (snd (_load_keywords keywords_file)) net order)
    = Raise e ->
  snd (main keywords_file net order elapsed) = Raise e /\
  filter is_write (fst (main keywords_file net order elapsed)) = [].
Proof.
  intros Hne Hraise. unfold main.
  assert (H0 : filter is_write (fst (_load_keywords keywords_file)) = [])
    by now destruct keywords_file.
  destruct (_load_keywords keywords_file) as [evs0 keywords].
  cbn [fst snd] in *. destruct keywords as [|kw keywords]; [congruence|].
  pose proof (as_completed_no_write net (kw :: keywords) order
                (new_stats (length_Z (kw :: keywords)))) as Hw.
  unfold process_keywords_async in *.
  destruct (as_completed net (kw :: keywords) order _) as [[evs s] [rows|e']];
    cbn [fst snd] in *; [discriminate|].
  injection Hraise as ->. split; [reflexivity|].
  now rewrite filter_app, H0, Hw.
Qed.

Lemma main_writes_nothing_when_batch_raises_witness :
  snd (main (Some ["shoes"; "boots"]%string)
         (fun i => match i with O => ai_mode_down | _ => malformed_body end)
         [0; 1]%nat 2%float) = Raise TypeError /\
  filter is_write
    (fst (main (Some ["shoes"; "boots"]%string)
            (fun i => match i with O => ai_mode_down | _ => malformed_body end)
            [0; 1]%nat 2%float)) = [].
Proof.
  apply (main_writes_nothing_when_batch_raises
           (Some ["shoes"; "boots"]%string)
           (fun i => match i with O => ai_mode_down | _ => malformed_body end)
           [0; 1]%nat 2%float TypeError).
  - discriminate.
  - reflexivity.
Defined.

(** ** Keyword source *)

Lemma lstrip_starts_clean (s : string) : starts_clean (lstrip s).
Proof.
  induction s as [|c s IH]; cbn [lstrip]; [exact I|].
  destruct (isspace c) eqn:E; [exact IH | exact E].
Qed.

Lemma lstrip_clean (s : string) : starts_clean s -> lstrip s = s.
Proof. destruct s as [|c s]; cbn; [reflexivity | now intros ->]. Qed.

Lemma rstrip_starts_clean (s : string) : starts_clean s -> starts_clean (rstrip s).
Proof.
  destruct s as [|c s]; cbn [rstrip starts_clean]; [auto|].
  intros Hc. rewrite Hc. now destruct (rstrip s).
Qed.

Lemma rstrip_idempotent (s : string) : rstrip (rstrip s) = rstrip s.
Proof.
  induction s as [|c s IH]; [reflexivity|].
  cbn [rstrip]. destruct (rstrip s) as [|c' r] eqn:E.
  - destruct (isspace c) eqn:Ec; cbn [rstrip]; [reflexivity | now rewrite Ec].
  - cbn [rstrip] in *. now rewrite IH.
Qed.

Lemma strip_clean (s : string) :
  lstrip (strip s) = strip s /\ rstrip (strip s) = strip s.
Proof.
  unfold strip. split.
  - apply lstrip_clean, rstrip_starts_clean, lstrip_starts_clean.
  - apply rstrip_idempotent.
Qed.

(** X16: every keyword the loader returns is the stripped form of a line of
    the file, is not empty and neither begins nor ends with whitespace, so
    stripping it again changes nothing; a missing file gives no keyword. *)
Theorem load_keywords_are_stripped (lines : list string) (kw : string) :
  In kw (snd (_load_keywords (Some lines))) ->
  (exists line, In line lines /\ kw = strip line) /\
  kw <> EmptyString /\
  lstrip kw = kw /\ rstrip kw = kw /\ strip kw = kw /\
  snd (_load_keywords None) = [].
Proof.
  cbn [_load_keywords snd]. intros Hin. apply filter_In in Hin.
  destruct Hin as [Hin Hne]. apply in_map_iff in Hin.
  destruct Hin as [line [<- Hline]].
  destruct (strip_clean line) as [Hl Hr].
  split; [now exists line|]. split.
  - intros E. rewrite E in Hne. discriminate.
  - repeat split; auto. unfold strip at 1. now rewrite Hl, Hr.
Qed.

Lemma load_keywords_are_stripped_witness :
  (exists line, In line ["  running shoes  "; ""]%string /\
                "running shoes"%string = strip line) /\
  "running shoes"%string <> EmptyString.
Proof.
  destruct (load_keywords_are_stripped ["  running shoes  "; ""]%string
              "running shoes" (or_introl eq_refl))
    as [H1 [H2 _]].
  split; assumption.
Defined.

Lemma rstrip_line (s : string) : rstrip (keyword_line s) = rstrip s.
Proof.
  unfold keyword_line. induction s as [|c s IH]; [reflexivity|].
  cbn [append rstrip]. now rewrite IH.
Qed.

Lemma strip_keyword_line (kw : string) :
  clean_keyword kw -> strip (keyword_line kw) = kw.
Proof.
  intros [Hne [Hl Hr]]. unfold strip.
  assert (Hs : starts_clean kw) by (rewrite <- Hl; apply lstrip_starts_clean).
  rewrite lstrip_clean.
  - now rewrite rstrip_line.
  - destruct kw as [|c kw]; [congruence | exact Hs].
Qed.

(** X17: a keywords file written with one clean keyword per line reads
    back as exactly those keywords, in order and with repetitions kept, and
    nothing is written on the error channel. *)
Theorem load_keywords_round_trip (keywords : list string) :
  Forall clean_keyword keywords ->
  _load_keywords (Some (map keyword_line keywords)) = ([], keywords).
Proof.
  intros Hclean. cbn [_load_keywords]. f_equal.
  induction Hclean as [|kw kws Hkw _ IH]; [reflexivity|].
  cbn [map filter]. rewrite (strip_keyword_line kw Hkw), IH.
  destruct Hkw as [Hne _]. destruct kw; [congruence | reflexivity].
Qed.

Lemma load_keywords_round_trip_witness :
  _load_keywords
    (Some (map keyword_line ["running shoes"; "boots"; "boots"]%string))
  = ([], ["running shoes"; "boots"; "boots"]%string).
Proof.
  apply (load_keywords_round_trip ["running shoes"; "boots"; "boots"]%string).
  repeat constructor; discriminate.
Defined.

(** ** Interleaved execution: progress and permits *)

Lemma start_live (keywords : list string) (net : nat -> ClientSession) :
  sched_live (start keywords net).
Proof.
  split; [exact (proj1 (start_ok keywords net))|].
  unfold start. cbn [coroutines].
  apply Forall_forall. intros c Hc. apply in_map_iff in Hc.
  destruct Hc as [ik [<- _]]. exists false. cbn [fst snd held].
  split; [reflexivity | apply keyword_events_protocol].
Qed.

Lemma step_live (s s' : sched) : sched_live s -> step s s' -> sched_live s'.
Proof.
  intros [Hsum Hall] Hstep.
  destruct Hstep as [s i done e rest Hnth Hen].
  assert (Hc : coroutine_live (done, e :: rest)).
  { eapply Forall_forall; [exact Hall|]. eapply nth_error_In; exact Hnth. }
  destruct Hc as [h [Hheld Hproto]]. cbn [fst snd] in *.
  unfold sched_live. cbn [permits coroutines].
  rewrite (total_held_replace i (done, e :: rest) _ _ Hnth). cbn [fst].
  destruct e, h; cbn [protocol] in Hproto; try discriminate;
    cbn [held permits_after enabled] in *;
    (split;
     [ lia
     | apply Forall_replace; [exact Hall|];
       first [ exists true; cbn [fst snd held]; split; [lia | exact Hproto]
             | exists false; cbn [fst snd held]; split; [lia | exact Hproto] ] ]).
Qed.

Lemma reachable_live (s0 s : sched) :
  sched_live s0 -> reachable s0 s -> sched_live s.
Proof.
  intros H0 Hr. induction Hr as [|s s' _ IH Hstep]; [exact H0|].
  eapply step_live; eauto.
Qed.

(** Either some coroutine can run its next event, or every coroutine is
    finished or waits for a permit while none is free. *)
Lemma runnable_or_blocked (p : nat) (cs : list coroutine) :
  (exists i done e rest,
     nth_error cs i = Some (done, e :: rest) /\ enabled p e) \/
  Forall (fun c : coroutine =>
            snd c = [] \/ (p = 0%nat /\ exists rest, snd c = Acquire :: rest))
         cs.
Proof.
  induction cs as [|[done pending] cs IH]; [right; constructor|].
  assert (Hrun : forall e rest, pending = e :: rest -> enabled p e ->
            exists i done0 e0 rest0,
              nth_error ((done, pending) :: cs) i = Some (done0, e0 :: rest0)
              /\ enabled p e0).
  { intros e rest -> He. now exists 0%nat, done, e, rest. }
  destruct IH as [[i [d [e [rest [Hnth He]]]]] | Hblocked].
  - left. now exists (S i), d, e, rest.
  - destruct pending as [|e rest].
    + right. constructor; [now left | exact Hblocked].
    + destruct e; try (left; eapply Hrun; [reflexivity | exact I]).
      destruct p as [|p].
      * right. constructor; [|exact Hblocked].
        right. split; [reflexivity | now exists rest].
      * left. eapply Hrun; [reflexivity | cbn; lia].
Qed.

Lemma blocked_holds_nothing (cs : list coroutine) (p : nat) :
  Forall coroutine_live cs ->
  Forall (fun c : coroutine =>
            snd c = [] \/ (p = 0%nat /\ exists rest, snd c = Acquire :: rest))
         cs ->
  total_held cs = 0.
Proof.
  intros Hlive Hblocked. unfold total_held.
  induction Hlive as [|c cs [h [Hh Hp]] _ IH]; [reflexivity|].
  inversion Hblocked as [|? ? Hc Hcs]; subst.
  cbn [fold_right]. rewrite (IH Hcs).
  destruct h; [|lia].
  destruct Hc as [E | [_ [rest E]]]; rewrite E in Hp; discriminate.
Qed.

(** X18: the batch cannot deadlock on the semaphore.  In every reachable
    state in which some coroutine still has events to perform, the event
    loop can run one of them. *)
Theorem batch_never_deadlocks (keywords : list string)
    (net : nat -> ClientSession) (s : sched) :
  reachable (start keywords net) s ->
  ~ finished s ->
  exists s', step s s'.
Proof.
  intros Hr Hnot.
  destruct (reachable_live _ _ (start_live keywords net) Hr) as [Hsum Hlive].
  destruct (runnable_or_blocked (permits s) (coroutines s))
    as [[i [done [e [rest [Hnth He]]]]] | Hblocked].
  - eexists. exact (step_event s i done e rest Hnth He).
  - exfalso. apply Hnot. unfold finished.
    pose proof (blocked_holds_nothing _ _ Hlive Hblocked) as Hzero.
    eapply Forall_impl; [|exact Hblocked].
    intros c [E | [Hp _]]; [exact E|].
    rewrite Hp, Hzero in Hsum. unfold MAX_CONCURRENT_REQUESTS in Hsum. lia.
Qed.

Lemma batch_never_deadlocks_witness :
  exists s', step shoes_in_flight s'.
Proof.
  apply (batch_never_deadlocks ["shoes"; "boots"]%string
           (fun _ => rate_limited_twice)).
  - eapply reachable_step.
    + eapply reachable_step.
      * apply reachable_start.
      * exact (step_event
                 (start ["shoes"; "boots"]%string (fun _ => rate_limited_twice))
                 0 [] Acquire
                 (tl (keyword_events rate_limited_twice "shoes"))
                 eq_refl (Nat.lt_0_succ 19)).
    + exact (step_event
               (mkSched 19
                  [([Acquire], tl (keyword_events rate_limited_twice "shoes"));
                   ([], keyword_events rate_limited_twice "boots")])
               0 [Acquire] (Post organic_live_advanced "shoes" 0)
               (tl (tl (keyword_events rate_limited_twice "shoes")))
               eq_refl I).
  - intros H. inversion H as [|? ? Hc _]. discriminate Hc.
Defined.

(** X19: no permit leaks.  In every reachable state the free permits are
    at most [MAX_CONCURRENT_REQUESTS], and once every coroutine is finished,
    whichever way each fetch ended, all the permits are free again. *)
Theorem batch_returns_all_permits (keywords : list string)
    (net : nat -> ClientSession) (s : sched) :
  reachable (start keywords net) s ->
  (permits s <= MAX_CONCURRENT_REQUESTS)%nat /\
  (finished s -> permits s = MAX_CONCURRENT_REQUESTS).
Proof.
  intros Hr.
  destruct (reachable_live _ _ (start_live keywords net) Hr) as [Hsum Hlive].
  assert (Hge : 0 <= total_held (coroutines s)).
  { clear - Hlive. unfold total_held.
    induction Hlive as [|c cs [h [Hh _]] _ IH]; cbn [fold_right]; [lia|].
    destruct h; lia. }
  split; [lia|].
  intros Hfin.
  assert (Hzero : total_held (coroutines s) = 0).
  { apply (blocked_holds_nothing _ 0%nat Hlive).
    eapply Forall_impl; [|exact Hfin]. intros c E. now left. }
  lia.
Qed.

Lemma batch_returns_all_permits_witness :
  (permits shoes_in_flight <= MAX_CONCURRENT_REQUESTS)%nat.
Proof.
  apply (batch_returns_all_permits ["shoes"; "boots"]%string
           (fun _ => rate_limited_twice)).
  eapply reachable_step.
  - eapply reachable_step.
    + apply reachable_start.
    + exact (step_event
               (start ["shoes"; "boots"]%string (fun _ => rate_limited_twice))
               0 [] Acquire
               (tl (keyword_events rate_limited_twice "shoes"))
               eq_refl (Nat.lt_0_succ 19)).
  - exact (step_event
             (mkSched 19
                [([Acquire], tl (keyword_events rate_limited_twice "shoes"));
                 ([], keyword_events rate_limited_twice "boots")])
             0 [Acquire] (Post organic_live_advanced "shoes" 0)
             (tl (tl (keyword_events rate_limited_twice "shoes")))
             eq_refl I).
Defined.

(** ** Per-keyword orchestrator: the requests of one keyword *)

Lemma fetch_posts_seq (url : endpoint) (session : ClientSession)
    (keyword : string) :
  exists n : nat,
    (1 <= n <= MAX_RETRIES)%nat /\
    posts_to url (fst (fetch url session keyword)) = seq 0 n.
Proof.
  destruct (fetch_shape url session keyword) as [m [Hm [_ Hcases]]].
  destruct Hcases as [[-> H] | [[Hlt [data [text [_ H]]]] | [Hlt [msg H]]]];
    rewrite H; cbn [fst].
  - exists MAX_RETRIES. split; [unfold MAX_RETRIES; lia|].
    change (Acquire :: ?l ++ ?r) with ([Acquire] ++ l ++ r).
    rewrite !posts_to_app, posts_to_retries.
    cbn [posts_to flat_map app]. now rewrite !app_nil_r.
  - exists (S m). split; [lia|].
    change (Acquire :: ?l ++ ?r) with ([Acquire] ++ l ++ r).
    rewrite !posts_to_app, posts_to_retries, posts_to_self.
    cbn [posts_to flat_map app]. now rewrite !app_nil_r, seq_S.
  - exists (S m). split; [lia|].
    change (Acquire :: ?l ++ ?r) with ([Acquire] ++ l ++ r).
    change [Post url keyword m; Stderr msg]
      with ([Post url keyword m] ++ [Stderr msg]).
    rewrite !posts_to_app, posts_to_retries, posts_to_self.
    cbn [posts_to flat_map app]. now rewrite !app_nil_r, seq_S.
Qed.

(** X20: one keyword costs at least one and at most [2 * MAX_RETRIES]
    requests: between 1 and [MAX_RETRIES] to the organic endpoint, numbered
    from 0, and at most [MAX_RETRIES] to the AI-mode endpoint, which is
    contacted exactly when the primary body is truthy and both of its
    extractions return. *)
Theorem keyword_requests_bounded (session : ClientSession) (keyword : string)
    (stats : ProcessingStats) :
  let evs := fst (fst (process_single_keyword session keyword stats)) in
  let body := snd (snd (fetch_serp_data session keyword)) in
  exists n n' : nat,
    (1 <= n <= MAX_RETRIES)%nat /\ (n' <= MAX_RETRIES)%nat /\
    posts_to organic_live_advanced evs = seq 0 n /\
    posts_to ai_mode_live_advanced evs = seq 0 n' /\
    (n' <> 0%nat <->
     truthy body = true /\
     (exists rows, _extract_ai_overview_rows body keyword = Ok rows) /\
     (exists rows, _extract_organic_rows body keyword = Ok rows)).
Proof.
  cbv zeta. rewrite process_single_keyword_cases. cbv zeta.
  destruct (fetch_posts_seq organic_live_advanced session keyword)
    as [n [Hn Hposts]].
  destruct (fetch_posts_seq ai_mode_live_advanced session keyword)
    as [n' [Hn' Hposts']].
  pose proof (fetch_posts_elsewhere organic_live_advanced ai_mode_live_advanced
                session keyword ltac:(discriminate)) as Hno.
  pose proof (fetch_posts_elsewhere ai_mode_live_advanced organic_live_advanced
                session keyword ltac:(discriminate)) as Hno'.
  fold fetch_serp_data in Hposts, Hno. fold fetch_ai_mode_data in Hposts', Hno'.
  assert (Hone : exists n n' : nat,
    (1 <= n <= MAX_RETRIES)%nat /\ (n' <= MAX_RETRIES)%nat /\
    posts_to organic_live_advanced (fst (fetch_serp_data session keyword))
      = seq 0 n /\
    posts_to ai_mode_live_advanced (fst (fetch_serp_data session keyword))
      = seq 0 n' /\ n' = 0%nat).
  { exists n, 0%nat. repeat split; try lia; assumption. }
  assert (Htwo : exists n n' : nat,
    (1 <= n <= MAX_RETRIES)%nat /\ (n' <= MAX_RETRIES)%nat /\
    posts_to organic_live_advanced
      (fst (fetch_serp_data session keyword)
         ++ fst (fetch_ai_mode_data session keyword)) = seq 0 n /\
    posts_to ai_mode_live_advanced
      (fst (fetch_serp_data session keyword)
         ++ fst (fetch_ai_mode_data session keyword)) = seq 0 n' /\
    n' <> 0%nat).
  { exists n, n'. rewrite !posts_to_app, Hposts, Hposts', Hno, Hno', app_nil_r.
    repeat split; try lia; reflexivity. }
  destruct (truthy (snd (snd (fetch_serp_data session keyword)))).
  2:{ destruct Hone as [a [b [H1 [H2 [H3 [H4 ->]]]]]]. exists a, 0%nat.
      split; [exact H1|]. split; [lia|]. split; [exact H3|].
      split; [exact H4|].
      split; [intros Hc; now elim Hc | intros [Hf _]; discriminate]. }
  destruct (_extract_ai_overview_rows _ keyword) as [ao|e].
  2:{ destruct Hone as [a [b [H1 [H2 [H3 [H4 ->]]]]]]. exists a, 0%nat.
      split; [exact H1|]. split; [lia|]. split; [exact H3|].
      split; [exact H4|].
      split; [intros Hc; now elim Hc
             | intros [_ [[rows Hf] _]]; discriminate]. }
  destruct (_extract_organic_rows _ keyword) as [org|e].
  2:{ destruct Hone as [a [b [H1 [H2 [H3 [H4 ->]]]]]]. exists a, 0%nat.
      split; [exact H1|]. split; [lia|]. split; [exact H3|].
      split; [exact H4|].
      split; [intros Hc; now elim Hc
             | intros [_ [_ [rows Hf]]]; discriminate]. }
  destruct Htwo as [a [b [H1 [H2 [H3 [H4 H5]]]]]]. exists a, b.
  assert (Hiff : b <> 0%nat <->
            true = true /\ (exists rows, Ok ao = Ok rows) /\
            (exists rows : list Row, Ok org = Ok rows)).
  { split; [|intros _; exact H5]. intros _. repeat split; eauto. }
  destruct (truthy (snd (snd (fetch_ai_mode_data session keyword))));
    [destruct (_extract_ai_mode_rows _ keyword)|];
    cbn [fst]; (split; [exact H1|]); (split; [exact H2|]);
    (split; [exact H3|]); (split; [exact H4|]); exact Hiff.
Qed.

(** ** The dashboard against the exporter *)



(** The dashboard's loop, like the exporter's, keeps its permit, and it
    writes nothing on the error channel. *)
Lemma dashboard_retry_loop_quiet (url : endpoint) (session : ClientSession)
    (keyword : string) (attempts : list nat) :
  protocol true (fst (Dashboard.retry_loop url session keyword attempts))
    = Some true /\
  stderr_lines (fst (Dashboard.retry_loop url session keyword attempts)) = [].
Proof.
  induction attempts as [|a rest [IHp IHs]]; [split; reflexivity|].
  cbn [Dashboard.retry_loop].
  destruct (session url a) as [status data text| |e|status err];
    repeat match goal with
      | |- context [if ?b then _ else _] => destruct b
      | |- context [let '(_, _) := ?p in _] => destruct p
      end;
    cbn [fst protocol stderr_lines flat_map app] in *; auto.
Qed.




(** Where the hypothesis fails: after a 503 whose body breaks off, the
    exporter retries and returns the body of the 200 that follows, while
    the dashboard has returned [None] at once. *)
Lemma dashboard_parts_from_exporter_on_unreadable_error :
  fetch_serp_data broken_503_then_200 "shoes" =
    ([Acquire;
      Post organic_live_advanced "shoes" 0; Sleep 1%float;
      Post organic_live_advanced "shoes" 1;
      Release],
     ("shoes"%string, PDict sample_response)) /\
  Dashboard.fetch_serp_data broken_503_then_200 "shoes" =
    ([Acquire; Post organic_live_advanced "shoes" 0; Release],
     ("shoes"%string, PNone)).
Proof. split; reflexivity. Qed.

(** ** The two AI-mode extractors *)






(** ** The dashboard's batch *)

Lemma dashboard_fetch_protocol (url : endpoint) (session : ClientSession)
    (keyword : string) :
  protocol false (fst (Dashboard.fetch url session keyword)) = Some false.
Proof.
  unfold Dashboard.fetch.
  destruct (dashboard_retry_loop_quiet url session keyword (seq 0 MAX_RETRIES))
    as [Hp _].
  destruct (Dashboard.retry_loop url session keyword (seq 0 MAX_RETRIES))
    as [evs r].
  cbn [fst] in *. cbn [protocol]. now rewrite protocol_app, Hp.
Qed.

Lemma dashboard_step_protocol (session : ClientSession) (flag : bool)
    (keyword : string) :
  protocol false (fst (Dashboard.keyword_step session flag keyword))
    = Some false.
Proof.
  unfold Dashboard.keyword_step.
  pose proof (dashboard_fetch_protocol organic_live_advanced session keyword)
    as H1.
  pose proof (dashboard_fetch_protocol ai_mode_live_advanced session keyword)
    as H2.
  fold Dashboard.fetch_serp_data in H1. fold Dashboard.fetch_ai_mode_data in H2.
  cbv zeta.
  repeat match goal with
    | |- context [if ?b then _ else _] => destruct b
    | |- context [match ?r with Ok _ => _ | Raise _ => _ end] => destruct r
    end; cbn [fst]; rewrite ?protocol_app, ?H1; auto.
Qed.

Lemma net_events_app (l1 l2 : list Dashboard.app_event) :
  Dashboard.net_events (l1 ++ l2)
    = Dashboard.net_events l1 ++ Dashboard.net_events l2.
Proof. apply flat_map_app. Qed.

Lemma net_events_Net (evs : list event) :
  Dashboard.net_events (map Dashboard.Net evs) = evs.
Proof.
  induction evs as [|e evs IH]; [reflexivity|]. cbn. now f_equal.
Qed.

Lemma dashboard_loop_protocol (net : nat -> ClientSession) (flag : bool)
    (n : Z) (keywords : list string) :
  forall i completed,
    protocol false
      (Dashboard.net_events
         (fst (Dashboard.keywords_loop net flag n keywords i completed)))
    = Some false.
Proof.
  induction keywords as [|kw rest IH]; intros i completed; [reflexivity|].
  cbn [Dashboard.keywords_loop].
  pose proof (dashboard_step_protocol (net i) flag kw) as Hs.
  destruct (Dashboard.keyword_step (net i) flag kw) as [evs [rows|e]];
    cbn [fst] in *.
  - specialize (IH (S i) (completed + 1)).
    destruct (Dashboard.keywords_loop net flag n rest (S i) (completed + 1))
      as [evs' r].
    cbn [fst] in *.
    change (map Dashboard.Net evs ++ ?c :: evs')
      with (map Dashboard.Net evs ++ [c] ++ evs').
    rewrite !net_events_app, net_events_Net, protocol_app, Hs.
    exact IH.
  - now rewrite net_events_Net.
Qed.

(** From the protocol to the permits held after a prefix of the events. *)
Lemma protocol_held (evs : list event) :
  forall (h h' : bool) (done : list event),
    protocol h evs = Some h' ->
    held (rev evs ++ done)
      = held done + (if h' then 1 else 0) - (if h then 1 else 0).
Proof.
  induction evs as [|e evs IH]; intros h h' done H.
  - injection H as <-. cbn. lia.
  - cbn [rev]. rewrite <- app_assoc. cbn [app].
    destruct e, h; cbn [protocol] in H; try discriminate;
      rewrite (IH _ _ _ H); cbn [held]; lia.
Qed.

Lemma protocol_prefix (l1 l2 : list event) (h h' : bool) :
  protocol h (l1 ++ l2) = Some h' -> exists h1, protocol h l1 = Some h1.
Proof.
  rewrite protocol_app. destruct (protocol h l1) as [h1|]; [eauto|discriminate].
Qed.

(** X23: the dashboard never uses its semaphore of 20 permits for more
    than one request at a time.  Its batch awaits the keywords one after
    the other, so at every point of its run it holds no permit or exactly
    one, and it holds none at the end. *)
Theorem dashboard_holds_at_most_one_permit (keywords : list string)
    (net : nat -> ClientSession) (fetch_ai_mode : bool)
    (before after : list event) :
  Dashboard.net_events
    (fst (Dashboard.process_keywords_async keywords net fetch_ai_mode))
    = before ++ after ->
  (held (rev before) = 0 \/ held (rev before) = 1) /\
  held (rev (before ++ after)) = 0.
Proof.
  intros Hsplit.
  pose proof (dashboard_loop_protocol net fetch_ai_mode (length_Z keywords)
                keywords 0%nat 0) as Hp.
  unfold Dashboard.process_keywords_async in Hsplit. rewrite Hsplit in Hp.
  split.
  - destruct (protocol_prefix _ _ _ _ Hp) as [h1 H1].
    pose proof (protocol_held before false h1 [] H1) as Hh.
    rewrite app_nil_r in Hh. cbn [held] in Hh. destruct h1; lia.
  - pose proof (protocol_held (before ++ after) false false [] Hp) as Hh.
    rewrite app_nil_r in Hh. cbn [held] in Hh. lia.
Qed.

Lemma dashboard_holds_at_most_one_permit_witness :
  held (rev [Acquire; Post organic_live_advanced "shoes" 0]) = 0 \/
  held (rev [Acquire; Post organic_live_advanced "shoes" 0]) = 1.
Proof.
  apply (dashboard_holds_at_most_one_permit ["shoes"; "boots"]%string
           (fun _ => ai_mode_down) true
           [Acquire; Post organic_live_advanced "shoes" 0]
           (tl (tl (Dashboard.net_events
                      (fst (Dashboard.process_keywords_async
                              ["shoes"; "boots"]%string
                              (fun _ => ai_mode_down) true)))))).
  reflexivity.
Defined.

Lemma dashboard_loop_progress (net : nat -> ClientSession) (flag : bool)
    (n : Z) (keywords : list string) :
  forall i completed rows,
    snd (Dashboard.keywords_loop net flag n keywords i completed) = Ok rows ->
    map snd (Dashboard.progress_calls
               (fst (Dashboard.keywords_loop net flag n keywords i completed)))
    = map (fun kw => ("Processing: " ++ kw)%string) keywords.
Proof.
  induction keywords as [|kw rest IH]; intros i completed rows H;
    [reflexivity|].
  cbn [Dashboard.keywords_loop] in *.
  destruct (Dashboard.keyword_step (net i) flag kw) as [evs [rs|e]];
    [|discriminate].
  specialize (IH (S i) (completed + 1)).
  destruct (Dashboard.keywords_loop net flag n rest (S i) (completed + 1))
    as [evs' [all|e]]; cbn [fst snd] in *; [|discriminate].
  unfold Dashboard.progress_calls in *. rewrite flat_map_app.
  assert (Hnone : flat_map
            (fun a => match a with
                      | Dashboard.Net _ => []
                      | Dashboard.Progress p t => [(p, t)]
                      end) (map Dashboard.Net evs) = []).
  { clear. induction evs as [|e evs IHe]; [reflexivity | exact IHe]. }
  rewrite Hnone. cbn [app flat_map map snd]. f_equal. eapply IH. reflexivity.
Qed.

Lemma dashboard_retry_loop_all_fail (url : endpoint)
    (session : ClientSession) (keyword : string) (attempts : list nat) :
  (forall a, In a attempts -> attempt_fails (session url a)) ->
  snd (Dashboard.retry_loop url session keyword attempts) = PNone.
Proof.
  induction attempts as [|a rest IH]; intros Hfail; [reflexivity|].
  cbn [Dashboard.retry_loop].
  specialize (IH (fun i Hi => Hfail i (or_intror Hi))).
  pose proof (Hfail a (or_introl eq_refl)) as Ha.
  destruct (session url a) as [status data text| |e|status err]; cbn in Ha.
  - apply Z.eqb_neq in Ha. rewrite Ha.
    destruct (status =? 429); [|reflexivity].
    now destruct (Dashboard.retry_loop url session keyword rest).
  - destruct (a <? MAX_RETRIES - 1)%nat; [|reflexivity].
    now destruct (Dashboard.retry_loop url session keyword rest).
  - destruct (a <? MAX_RETRIES - 1)%nat; [|reflexivity].
    now destruct (Dashboard.retry_loop url session keyword rest).
  - destruct (status =? 200), (status =? 429), (a <? MAX_RETRIES - 1)%nat;
      try reflexivity;
      now destruct (Dashboard.retry_loop url session keyword rest).
Qed.

Lemma dashboard_step_failure (session : ClientSession) (flag : bool)
    (keyword : string) :
  (forall a, (a < MAX_RETRIES)%nat ->
     attempt_fails (session organic_live_advanced a)) ->
  snd (Dashboard.keyword_step session flag keyword) = Ok [].
Proof.
  intros Hfail. unfold Dashboard.keyword_step.
  assert (Hnone : snd (snd (Dashboard.fetch_serp_data session keyword))
                  = PNone).
  { unfold Dashboard.fetch_serp_data, Dashboard.fetch.
    pose proof (dashboard_retry_loop_all_fail organic_live_advanced session
                  keyword (seq 0 MAX_RETRIES)) as H.
    destruct (Dashboard.retry_loop organic_live_advanced session keyword
                (seq 0 MAX_RETRIES)) as [evs r].
    cbn [fst snd] in *. apply H. intros a Ha. apply Hfail.
    apply in_seq in Ha. lia. }
  cbv zeta. rewrite Hnone. reflexivity.
Qed.

(** X24: the dashboard does not tell a failed keyword from a successful
    one.  Whenever its batch returns, [progress_callback] has been called
    once per keyword, in input order, with the text "Processing: <keyword>";
    and when the primary fetch of every keyword fails on every attempt (a
    wrong password, say) the batch still returns normally, with no rows. *)
Theorem dashboard_failures_are_silent (keywords : list string)
    (net : nat -> ClientSession) (fetch_ai_mode : bool) :
  (forall rows,
     snd (Dashboard.process_keywords_async keywords net fetch_ai_mode)
       = Ok rows ->
     map snd (Dashboard.progress_calls
                (fst (Dashboard.process_keywords_async keywords net
                        fetch_ai_mode)))
     = map (fun kw => ("Processing: " ++ kw)%string) keywords) /\
  ((forall i a, (a < MAX_RETRIES)%nat ->
      attempt_fails (net i organic_live_advanced a)) ->
   snd (Dashboard.process_keywords_async keywords net fetch_ai_mode) = Ok []).
Proof.
  unfold Dashboard.process_keywords_async. split.
  - intros rows. apply dashboard_loop_progress.
  - intros Hfail. generalize 0%nat as i, 0 as completed.
    generalize (length_Z keywords) as n. intro n.
    induction keywords as [|kw rest IH]; intros i completed; [reflexivity|].
    cbn [Dashboard.keywords_loop].
    pose proof (dashboard_step_failure (net i) fetch_ai_mode kw
                  (fun a Ha => Hfail i a Ha)) as Hs.
    destruct (Dashboard.keyword_step (net i) fetch_ai_mode kw) as [evs r].
    cbn [snd] in Hs. subst r.
    specialize (IH (S i) (completed + 1)).
    destruct (Dashboard.keywords_loop net fetch_ai_mode n rest (S i)
                (completed + 1)) as [evs' r'].
    cbn [snd] in *. now rewrite IH.
Qed.

Lemma dashboard_failures_are_silent_witness :
  snd (Dashboard.process_keywords_async ["shoes"; "boots"]%string
         (fun _ => timeout_then_404) true) = Ok [].
Proof.
  apply (dashboard_failures_are_silent ["shoes"; "boots"]%string
           (fun _ => timeout_then_404) true).
  intros i [|a] _; cbn; [exact I | lia].
Defined.







(** ** Extraction over whole documents *)

Lemma for_each_app (xs ys : list Any) (body : Any -> result (list Row))
    (rx ry : list Row) :
  for_each xs body = Ok rx -> for_each ys body = Ok ry ->
  for_each (xs ++ ys) body = Ok (rx ++ ry).
Proof.
  revert rx. induction xs as [|x xs IH]; intros rx Hx Hy.
  - injection Hx as <-. exact Hy.
  - cbn [app for_each] in *.
    apply rbind_Ok in Hx. destruct Hx as [r1 [H1 Hx]].
    apply rbind_Ok in Hx. destruct Hx as [r2 [H2 Hx]].
    injection Hx as <-. rewrite H1. cbn [rbind].
    rewrite (IH r2 H2 Hy). cbn [rbind]. now rewrite app_assoc.
Qed.

Lemma for_each_map_count {X} (f : X -> Any) (xs : list X)
    (body : Any -> result (list Row)) (count : X -> nat) :
  (forall x, In x xs ->
     exists rows, body (f x) = Ok rows /\ List.length rows = count x) ->
  exists rows,
    for_each (map f xs) body = Ok rows /\
    List.length rows = list_sum (map count xs).
Proof.
  induction xs as [|x xs IH]; intros Hbody.
  - exists []. split; reflexivity.
  - destruct (Hbody x (or_introl eq_refl)) as [r [Hr Hl]].
    destruct (IH (fun y Hy => Hbody y (or_intror Hy))) as [rs [Hrs Hls]].
    cbn [map for_each]. rewrite Hr. cbn [rbind]. rewrite Hrs. cbn [rbind].
    eexists. split; [reflexivity|]. rewrite length_app.
    cbn [map list_sum fold_right]. fold (list_sum (map count xs)). lia.
Qed.

Lemma list_sum_flat_map {X Y} (g : X -> list Y) (count : Y -> nat)
    (xs : list X) :
  list_sum (map count (flat_map g xs))
  = list_sum (map (fun x => list_sum (map count (g x))) xs).
Proof.
  induction xs as [|x xs IH]; [reflexivity|].
  cbn [flat_map map]. rewrite map_app, list_sum_app, IH. reflexivity.
Qed.

(** The walk over a well-formed document visits every item once, in
    document order. *)
Lemma walk_items_shape (doc : Dict) (shape : doc_shape) (fallback : string)
    (item_rows : Any -> Any -> result (list Row)) (count : Dict -> nat) :
  doc_has_shape doc shape ->
  (forall kw item, In item (all_items shape) ->
     exists rows, item_rows kw (PDict item) = Ok rows /\
                  List.length rows = count item) ->
  exists rows,
    walk_items (PDict doc) fallback item_rows = Ok rows /\
    List.length rows = list_sum (map count (all_items shape)).
Proof.
  intros [Htasks Hshape] Hitem. unfold walk_items.
  rewrite get_dict, Htasks. cbn [rbind]. rewrite iter_or_list. cbn [rbind].
  unfold all_items. rewrite list_sum_flat_map.
  apply for_each_map_count. intros [task results] Htr.
  pose proof (proj1 (Forall_forall _ _) Hshape _ Htr) as [[d Hd] [Hres Hri]].
  cbn [fst snd] in *.
  rewrite get_dict. cbn [rbind]. rewrite Hd, get_dict. cbn [rbind].
  rewrite get_dict, Hres. cbn [rbind]. rewrite iter_or_list. cbn [rbind].
  rewrite list_sum_flat_map.
  apply for_each_map_count. intros [res items] Hr.
  pose proof (proj1 (Forall_forall _ _) Hri _ Hr) as Hi.
  unfold result_has_items in Hi. cbn [fst snd] in *.
  rewrite !get_dict. cbn [rbind]. rewrite Hi, iter_or_list. cbn [rbind].
  apply for_each_map_count. intros item Hin. apply Hitem.
  apply in_flat_map. exists (task, results). split; [exact Htr|].
  apply in_flat_map. exists (res, items). split; [exact Hr | exact Hin].
Qed.

Lemma count_as_sum (p : Dict -> bool) (k : nat) (items : list Dict) :
  (k * List.length (filter p items))%nat
  = list_sum (map (fun it => if p it then k else 0%nat) items).
Proof.
  induction items as [|it items IH]; [cbn; lia|].
  cbn [filter map list_sum fold_right].
  fold (list_sum (map (fun it => if p it then k else 0%nat) items)).
  destruct (p it); cbn [List.length]; lia.
Qed.

(** X26: on a well-formed document (tasks, results and items are lists of
    objects), with any number of tasks and results, [_extract_organic_rows]
    returns one row per item of type "organic" and
    [_extract_ai_mode_rows], when each AI item carries [n] reference
    objects, [1 + n] rows per item of type "ai_overview": items of other
    types, or without a type, give no row and no error. *)
Theorem rows_per_item_of_a_document (doc : Dict) (shape : doc_shape)
    (fallback : string) (n : nat) :
  doc_has_shape doc shape ->
  (forall it, In it (all_items shape) -> has_type "ai_overview" it = true ->
     exists refs, dget it "references" = PList (map PDict refs) /\
                  List.length refs = n) ->
  (exists rows,
     _extract_organic_rows (PDict doc) fallback = Ok rows /\
     List.length rows = count_type "organic" (all_items shape)) /\
  (exists rows,
     _extract_ai_mode_rows (PDict doc) fallback = Ok rows /\
     List.length rows = ((1 + n) * count_type "ai_overview" (all_items shape))%nat).
Proof.
  intros Hshape Hrefs. split.
  - unfold _extract_organic_rows, count_type.
    rewrite <- (Nat.mul_1_l (List.length _)), count_as_sum.
    apply (walk_items_shape doc shape fallback organic_item_rows _ Hshape).
    intros kw item _. unfold organic_item_rows, has_type.
    rewrite get_dict. cbn [rbind].
    destruct (ne_str (dget item "type") "organic");
      eexists; split; reflexivity.
  - unfold _extract_ai_mode_rows, count_type. rewrite count_as_sum.
    apply (walk_items_shape doc shape fallback ai_mode_item_rows _ Hshape).
    intros kw item Hin. specialize (Hrefs item Hin).
    unfold has_type in *. unfold ai_mode_item_rows.
    rewrite get_dict. cbn [rbind].
    destruct (ne_str (dget item "type") "ai_overview");
      [exists []; split; reflexivity|].
    destruct (Hrefs eq_refl) as [refs [Href Hn]].
    rewrite !get_dict. cbn [rbind]. rewrite Href.
    assert (Hor : py_or (PList (map PDict refs)) (PList [])
                  = PList (map PDict refs)) by now destruct refs.
    rewrite Hor. cbn [len rbind iter].
    match goal with
    | |- context [for_each (map PDict refs) ?b] =>
        assert (Hc : exists cs, for_each (map PDict refs) b = Ok cs /\
                                List.length cs = List.length refs)
    end.
    { clear. induction refs as [|r refs [cs [IHc Hlc]]].
      - exists []. split; reflexivity.
      - cbn [map for_each]. rewrite IHc. cbn [get rbind].
        eexists. split; [reflexivity|]. cbn. now rewrite Hlc. }
    destruct Hc as [cs [Hc Hlc]].
    destruct refs as [|first_ref refs'];
      cbn [map truthy rbind index0 get fst snd] in *; rewrite Hc;
      cbn [rbind negb]; eexists; (split; [reflexivity|]);
      cbn [List.length] in *; lia.
Qed.

Lemma rows_per_item_of_a_document_witness :
  exists rows,
    _extract_ai_mode_rows (PDict sample_response) "shoes" = Ok rows /\
    List.length rows = 3%nat.
Proof.
  apply (rows_per_item_of_a_document sample_response sample_shape "shoes" 2).
  - split; [reflexivity|].
    constructor; [|constructor].
    split; [eexists; reflexivity|]. split; [reflexivity|].
    constructor; [reflexivity | constructor].
  - intros it [<- | [<- | []]] Hty.
    + discriminate Hty.
    + exists [sample_reference_1; sample_reference_2]. split; reflexivity.
Defined.

(** ** AI overview: the three levels of citations *)

Lemma for_each_map_flat {X} (f : X -> Any) (xs : list X)
    (body : Any -> result (list Row)) (g : X -> list (option Any)) :
  (forall x, In x xs ->
     exists rows, body (f x) = Ok rows /\
                  map (lookup "references_markdown") rows = g x) ->
  exists rows,
    for_each (map f xs) body = Ok rows /\
    map (lookup "references_markdown") rows = flat_map g xs.
Proof.
  induction xs as [|x xs IH]; intros Hbody.
  - exists []. split; reflexivity.
  - destruct (Hbody x (or_introl eq_refl)) as [r [Hr Hl]].
    destruct (IH (fun y Hy => Hbody y (or_intror Hy))) as [rs [Hrs Hls]].
    cbn [map for_each]. rewrite Hr. cbn [rbind]. rewrite Hrs. cbn [rbind].
    eexists. split; [reflexivity|].
    unfold Row, Dict in *. rewrite map_app, Hl, Hls. reflexivity.
Qed.

Lemma reference_rows_markdown (kw md : Any) (owner : Dict) (refs : list Dict) :
  dget owner "references" = PList (map PDict refs) ->
  exists rows,
    reference_rows kw md (PDict owner) = Ok rows /\
    map (lookup "references_markdown") rows
      = repeat (Some md) (List.length refs).
Proof.
  intros Href. unfold reference_rows. rewrite get_dict, Href. cbn [rbind].
  rewrite iter_or_list. cbn [rbind]. clear Href.
  induction refs as [|r refs [rows [IH Hl]]].
  - exists []. split; reflexivity.
  - cbn [map for_each]. rewrite IH. eexists. split; [reflexivity|].
    cbn [map app List.length repeat]. rewrite Hl. reflexivity.
Qed.

Lemma map_Some_flat_map {X} (g : X -> list Any) (xs : list X) :
  map Some (flat_map g xs) = flat_map (fun x => map Some (g x)) xs.
Proof.
  induction xs as [|x xs IH]; [reflexivity|].
  cbn [flat_map]. now rewrite map_app, IH.
Qed.

(** X27: an AI-overview item with citations at its three levels (on the
    item, on its sub-items, on their components) gives one row per
    reference, level by level in document order, and each row's
    [references_markdown] is the markdown of the block the reference is on,
    else that of the enclosing sub-item, else that of the item, else the
    empty string. *)
Theorem ai_overview_rows_by_level (kw : Any) (b : citation_block)
    (subs : list (citation_block * list citation_block)) :
  exists rows,
    ai_overview_item_rows kw (ai_overview_dict b subs) = Ok rows /\
    map (lookup "references_markdown") rows
      = map Some (expected_markdowns b subs) /\
    List.length rows = List.length (expected_markdowns b subs).
Proof.
  assert (H : exists rows,
    ai_overview_item_rows kw (ai_overview_dict b subs) = Ok rows /\
    map (lookup "references_markdown") rows
      = map Some (expected_markdowns b subs)).
  { unfold ai_overview_item_rows, ai_overview_dict, expected_markdowns.
    rewrite !get_dict. cbn [rbind].
    change (ne_str (dget _ "type") "ai_overview") with false. cbv iota.
    change (dget (("type"%string, PStr "ai_overview")
                    :: block_fields b ++ _) "markdown")
      with (block_markdown b).
    destruct (reference_rows_markdown kw (py_or (block_markdown b) (PStr ""))
                (("type"%string, PStr "ai_overview")
                   :: block_fields b
                   ++ [("items"%string, PList (map sub_item_dict subs))])
                (block_references b) eq_refl) as [direct [Hd Hdm]].
    rewrite Hd. cbn [rbind].
    change (dget (("type"%string, PStr "ai_overview")
                    :: block_fields b ++ _) "items")
      with (PList (map sub_item_dict subs)).
    rewrite iter_or_list. cbn [rbind].
    match goal with
    | |- context [for_each (map sub_item_dict subs) ?body] =>
        destruct (for_each_map_flat sub_item_dict subs body
          (fun s =>
             map Some
               (repeat (py_or (block_markdown (fst s))
                          (py_or (block_markdown b) (PStr "")))
                       (List.length (block_references (fst s)))
                ++ flat_map (fun c =>
                     repeat (py_or (py_or (block_markdown c)
                                      (py_or (block_markdown (fst s))
                                         (py_or (block_markdown b) (PStr ""))))
                                   (PStr ""))
                            (List.length (block_references c)))
                   (snd s))))
          as [nested [Hn Hnm]]
    end.
    { intros [sb comps] _. unfold sub_item_dict. cbn [fst snd].
      rewrite !get_dict. cbn [rbind].
      change (dget (block_fields sb ++ _) "markdown")
        with (block_markdown sb).
      destruct (reference_rows_markdown kw
                  (py_or (block_markdown sb)
                     (py_or (block_markdown b) (PStr "")))
                  (block_fields sb
                     ++ [("components"%string,
                          PList (map component_dict comps))])
                  (block_references sb) eq_refl) as [sub_rows [Hs Hsm]].
      rewrite Hs. cbn [rbind].
      change (dget (block_fields sb ++ _) "components")
        with (PList (map component_dict comps)).
      rewrite iter_or_list. cbn [rbind].
      match goal with
      | |- context [for_each (map component_dict comps) ?body] =>
          destruct (for_each_map_flat component_dict comps body
            (fun c =>
               map Some
                 (repeat (py_or (py_or (block_markdown c)
                                   (py_or (block_markdown sb)
                                      (py_or (block_markdown b) (PStr ""))))
                                (PStr ""))
                         (List.length (block_references c)))))
            as [comp_rows [Hc Hcm]]
      end.
      { intros c _. unfold component_dict. rewrite get_dict. cbn [rbind].
        change (dget (block_fields c) "markdown") with (block_markdown c).
        destruct (reference_rows_markdown kw
                    (py_or (py_or (block_markdown c)
                              (py_or (block_markdown sb)
                                 (py_or (block_markdown b) (PStr ""))))
                           (PStr ""))
                    (block_fields c) (block_references c) eq_refl)
          as [rows [Hr Hrm]].
        exists rows. split; [exact Hr|]. rewrite Hrm.
        now rewrite map_repeat. }
      rewrite Hc. cbn [rbind]. eexists. split; [reflexivity|].
      unfold Row, Dict in *.
      rewrite !map_app, Hsm, Hcm, map_repeat, map_Some_flat_map.
      reflexivity. }
    rewrite Hn. cbn [rbind]. eexists. split; [reflexivity|].
    unfold Row, Dict in *.
    rewrite !map_app, Hdm, Hnm, map_repeat, map_Some_flat_map. reflexivity. }
  destruct H as [rows [Hrows Hmd]]. exists rows.
  split; [exact Hrows|]. split; [exact Hmd|].
  apply (f_equal (@List.length _)) in Hmd. now rewrite !length_map in Hmd.
Qed.

Lemma csv_record_is_rectangular_witness :
  nth_error (csv_record [ ("keyword"%string, PStr "shoes");
                          ("page"%string, PNone) ]) 1
    = Some (PStr "shoes") /\
  nth_error (csv_record [ ("keyword"%string, PStr "shoes");
                          ("page"%string, PNone) ]) 3
    = Some (PStr "").
Proof.
  split.
  - exact (proj2 (proj2 (proj2 (csv_record_is_rectangular
             [ ("keyword"%string, PStr "shoes"); ("page"%string, PNone) ])))
             1%nat "keyword"%string eq_refl).
  - exact (proj2 (proj2 (proj2 (csv_record_is_rectangular
             [ ("keyword"%string, PStr "shoes"); ("page"%string, PNone) ])))
             3%nat "page"%string eq_refl).
Defined.
